(** * Daylight analysis: IFC geometry reconciliation

    A shallow embedding of the two Python modules of the repository:

    - [daylight_analysis_load_IFC_data.py] (part 1): [arbiClosOut],
      [spaceDims], [windowParams], [SpaceParams];
    - [main.py] (part 2): the [Window] and [Space] dataclasses,
      [Spaces.__init__], [Analysis.__createRoom], [Analysis.__addWindows].

    Conventions of the embedding.

    - Python lists that are indexed by position ([spaceParam[2]],
      [windowParam[i][4]], [val[1:2]]) are lists of dynamically typed
      values [pyval]; an index out of range raises [IndexError] as in
      Python.
    - Python numbers are exact rationals [Q]: a float literal such as
      [0.1] stands for the rational it denotes, [==] and [>] on numbers
      are [Qeq_bool] and [Qlt]. Rounding error of binary floating point
      is outside this model.
    - Code that can raise returns in the error monad [res]; an in-place
      update ([spaceParam.append], [window.loc_x = ...]) is explicit
      state passing: the function returns the updated object.
    - Entities of ifcopenshell and honeybee are records holding exactly
      the attributes the code reads; results of spatial queries
      ([t.select_box]) are passed in as the list they return. *)

From Stdlib Require Import ZArith QArith Qround String Ascii List Bool.
From Stdlib Require Import Permutation Lia Morphisms.
Import ListNotations.

Local Open Scope Q_scope.

(** ** Exceptions and the error monad *)

Inductive exn : Type :=
| ValueError
| IndexError
| TypeError
| UnboundLocalError.

Inductive res (A : Type) : Type :=
| Ok (a : A)
| Raise (e : exn).

Arguments Ok {A} a.
Arguments Raise {A} e.

Definition bind {A B : Type} (m : res A) (k : A -> res B) : res B :=
  match m with
  | Ok a => k a
  | Raise e => Raise e
  end.

Notation "x <- m ;; k" := (bind m (fun x => k))
  (at level 61, m at next level, right associativity).

(** [for x in l: s = body(s, x)] *)
Fixpoint for_each {S A : Type} (body : S -> A -> res S) (l : list A) (s : S)
  : res S :=
  match l with
  | [] => Ok s
  | a :: l' => s' <- body s a ;; for_each body l' s'
  end.

(** [[f(x) for x in l]], the first exception wins. *)
Fixpoint mapM {A B : Type} (f : A -> res B) (l : list A) : res (list B) :=
  match l with
  | [] => Ok []
  | a :: l' => b <- f a ;; bs <- mapM f l' ;; Ok (b :: bs)
  end.

(** ** Python values *)

#[local] Set Warnings "-register-all".

Inductive pyval : Type :=
| PNone
| PStr (s : string)
| PNum (q : Q)
| PFormat                 (* the workbook's [cell_format] object *)
| PList (l : list pyval).

(** Python's [==]. *)
Fixpoint py_eq (a b : pyval) {struct a} : bool :=
  match a, b with
  | PNone, PNone => true
  | PStr s, PStr t => String.eqb s t
  | PNum x, PNum y => Qeq_bool x y
  | PFormat, PFormat => true
  | PList l, PList m =>
      (fix all2 (l m : list pyval) {struct l} : bool :=
         match l, m with
         | [], [] => true
         | x :: l', y :: m' => py_eq x y && all2 l' m'
         | _, _ => false
         end) l m
  | _, _ => false
  end.

(** [l[k]] on a list. *)
Definition subscript (l : list pyval) (k : nat) : res pyval :=
  match nth_error l k with
  | Some v => Ok v
  | None => Raise IndexError
  end.

(** [v[k]] on a value: lists and strings can be indexed. *)
Definition py_getitem (v : pyval) (k : nat) : res pyval :=
  match v with
  | PList l => subscript l k
  | PStr s =>
      match String.get k s with
      | Some c => Ok (PStr (String c EmptyString))
      | None => Raise IndexError
      end
  | _ => Raise TypeError
  end.

(** The characters of a string, as iteration over it yields them. *)
Fixpoint chars (s : string) : list pyval :=
  match s with
  | EmptyString => []
  | String c s' => PStr (String c EmptyString) :: chars s'
  end.

(** [v[1:2]], then iterated over. *)
Definition slice_1_2 (v : pyval) : res (list pyval) :=
  match v with
  | PList l => Ok (firstn 1 (skipn 1 l))
  | PStr s => Ok (chars (String.substring 1 1 s))
  | _ => Raise TypeError
  end.

(** Ordering and arithmetic, on numbers. Python also orders and adds
    strings and lists; the code applies these operators to coordinates
    and lengths only, and every other operand is reported as a
    [TypeError] here. *)
Definition Qlt_bool (x y : Q) : bool := negb (Qle_bool y x).

Definition py_gt (a b : pyval) : res bool :=
  match a, b with
  | PNum x, PNum y => Ok (Qlt_bool y x)
  | _, _ => Raise TypeError
  end.

Definition py_sub (a b : pyval) : res pyval :=
  match a, b with
  | PNum x, PNum y => Ok (PNum (x - y))
  | _, _ => Raise TypeError
  end.

Definition py_add (a b : pyval) : res pyval :=
  match a, b with
  | PNum x, PNum y => Ok (PNum (x + y))
  | _, _ => Raise TypeError
  end.

(** ** Rounding, minimum and maximum *)

(** Round half to even, as Python's [round] does. *)
Definition round_half_even (x : Q) : Z :=
  let f := Qfloor x in
  match Qcompare (x - inject_Z f) (1 # 2) with
  | Lt => f
  | Gt => (f + 1)%Z
  | Eq => if Z.even f then f else (f + 1)%Z
  end.

(** [round(x, 3)]; the result is in lowest terms. *)
Definition round3 (x : Q) : Q :=
  Qred (round_half_even (x * 1000) # 1000).

(** [min(vs)]: the first least element; [ValueError] on no element. *)
Definition py_min (vs : list Q) : res Q :=
  match vs with
  | [] => Raise ValueError
  | v :: vs' => Ok (fold_left (fun m x => if Qlt_bool x m then x else m) vs' v)
  end.

(** [max(vs)]: the first greatest element. *)
Definition py_max (vs : list Q) : res Q :=
  match vs with
  | [] => Raise ValueError
  | v :: vs' => Ok (fold_left (fun m x => if Qlt_bool m x then x else m) vs' v)
  end.

(** ** Part 1: extraction from the IFC model *)

(** [point[k] for point in points]: a point with no coordinate [k]
    raises [IndexError]. *)
Fixpoint coordinate (k : nat) (points : list (list Q)) : res (list Q) :=
  match points with
  | [] => Ok []
  | point :: points' =>
      match nth_error point k with
      | None => Raise IndexError
      | Some v => vs <- coordinate k points' ;; Ok (v :: vs)
      end
  end.

(** The list [points] after [arbiClosOut] has appended the profile's
    points to it (the caller's list is extended in place). *)
Definition arbiClosOut_points (OuterCurve_Points points : list (list Q))
  : list (list Q) :=
  points ++ OuterCurve_Points.

(** [arbiClosOut(prop, points)]: [OuterCurve_Points] are the coordinate
    tuples [point[0]] of [prop.OuterCurve.Points]. *)
Definition arbiClosOut (OuterCurve_Points points : list (list Q))
  : res (list pyval) :=
  let points := arbiClosOut_points OuterCurve_Points points in
  xs <- coordinate 0 points ;;
  bot_left_x <- py_min xs ;;
  ys <- coordinate 1 points ;;
  bot_left_y <- py_min ys ;;
  top_right_x <- py_max xs ;;
  top_right_y <- py_max ys ;;
  let XDim := top_right_x - bot_left_x in
  let YDim := top_right_y - bot_left_y in
  Ok [PList [PNum 2; PNum (round3 XDim); PFormat];
      PList [PNum 3; PNum (round3 YDim); PFormat]].

(** The plan profile [space.Representation.Representations[0][3][0][0]]. *)
Inductive profile : Type :=
| IfcRectangleProfileDef (XDim YDim : Q)
| IfcArbitraryClosedProfileDef (OuterCurve_Points : list (list Q))
| OtherProfile.

Module IfcSpace.
Record t : Type := {
  LongName : string;
  Name : string;
  prop : profile;
  Unbounded_Height : Q   (* PSet_Revit_Dimensions.Unbounded Height *)
}.
End IfcSpace.

(** [spaceDims(space)]: [None] for a hallway or a roof space. *)
Definition spaceDims (space : IfcSpace.t) : res (option (list pyval)) :=
  if negb (String.eqb (IfcSpace.LongName space) "Hallway")
     && negb (String.eqb (IfcSpace.LongName space) "Roof")
  then
    let out := [PList [PNum 0; PStr (IfcSpace.LongName space)];
                PList [PNum 1; PStr (IfcSpace.Name space)]] in
    out <- match IfcSpace.prop space with
           | IfcRectangleProfileDef XDim YDim =>
               let a := PList [PNum 2; PNum (round3 XDim)] in
               let b := PList [PNum 3; PNum (round3 YDim)] in
               Ok ((out ++ [b]) ++ [a])
           | IfcArbitraryClosedProfileDef pts =>
               rows <- arbiClosOut pts [] ;;
               match rows with
               | [a; b] => Ok ((out ++ [a]) ++ [b])
               | _ => Raise ValueError
               end
           | OtherProfile => Ok out
           end ;;
    let spaceHeight := IfcSpace.Unbounded_Height space in
    Ok (Some (out ++ [PList [PNum 4; PNum (round3 spaceHeight)]]))
  else Ok None.

(** [SpaceParams(out, excelFormat).out]: with [excelFormat == False]
    every row is cut down to its value, [val[1:2]], and the rows are
    flattened; otherwise [out] is left as it is. *)
Definition SpaceParams (out : option (list pyval)) (excelFormat : option bool)
  : res (option (list pyval)) :=
  match excelFormat with
  | Some false =>
      analysisOut <- mapM slice_1_2 (match out with Some o => o | None => [] end) ;;
      Ok (Some (concat analysisOut))
  | _ => Ok out
  end.

(** Module level of [main.py]: one record per space, empty ones removed. *)
Definition spaceOut_of (spaces : list IfcSpace.t) : res (list (list pyval)) :=
  out <- mapM (fun i =>
                 d <- spaceDims i ;;
                 o <- SpaceParams d (Some false) ;;
                 Ok (match o with Some l => l | None => [] end)) spaces ;;
  Ok (filter (fun x => negb (py_eq (PList x) (PList []))) out).

(** An element returned by the spatial query [t.select_box(window)]:
    its IFC class, [PSet_Revit_Dimensions.Length] and the direction
    ratios of [ObjectPlacement.RelativePlacement.RefDirection]. *)
Module IfcElement.
Record t : Type := {
  ifc_class : string;
  Length : pyval;
  RefDirection : option (list Q)
}.

Definition is_a (e : t) (c : string) : bool := String.eqb (ifc_class e) c.
End IfcElement.

Module IfcWindow.
Record t : Type := {
  Name : string;
  Tag : string;
  Height : Q;                  (* PSet_Revit_Type_Dimensions.Height *)
  Width : Q;                   (* PSet_Revit_Type_Dimensions.Width *)
  Sill_Height : option Q;      (* PSet_Revit_Constraints.Sill Height *)
  Location : Q * Q * Q         (* ...RelativePlacement.Location[0] *)
}.
End IfcWindow.

(** [==] on tuples of numbers. *)
Fixpoint tuple_eq (a b : list Q) : bool :=
  match a, b with
  | [], [] => true
  | x :: a', y :: b' => Qeq_bool x y && tuple_eq a' b'
  | _, _ => false
  end.

(** The [if]/[elif] chain on a wall's reference direction: the value of
    [wall_name] after it. There is no [else]: a direction that matches
    no branch leaves [wall_name] as it was. *)
Definition wall_orientation (wall_name : string) (RefDirection : option (list Q))
  : string :=
  let placement :=
    match RefDirection with
    | None => [0; 0; 0]
    | Some ratios => ratios
    end in
  if tuple_eq placement [0; 0; 0] then "front"
  else if tuple_eq placement [0; -1; 0] then "right"
  else if tuple_eq placement [0; 1; 0] then "left"
  else if tuple_eq placement [-1; 0; 0] then "back"
  else wall_name.

(** One pass of [for wall in t.select_box(window)] over the pair
    [(wall_name, wall_length)]. *)
Definition select_wall (st : string * pyval) (wall : IfcElement.t)
  : string * pyval :=
  let '(wall_name, wall_length) := st in
  if IfcElement.is_a wall "IfcWallStandardCase" then
    let wall_length := IfcElement.Length wall in
    (wall_orientation wall_name (IfcElement.RefDirection wall), wall_length)
  else (wall_name, wall_length).

(** [(wall_name, wall_length)] when the loop is over. *)
Definition locate_wall (select_box : list IfcElement.t) : string * pyval :=
  fold_left select_wall select_box (EmptyString, PNum 0).

(** [windowParams(window, debug, excelFormat)]; [select_box] is what
    [t.select_box(window)] returns. *)
Definition windowParams (window : IfcWindow.t) (select_box : list IfcElement.t)
  (excelFormat : bool) : list pyval :=
  let windowHeight := IfcWindow.Height window in
  let windowWidth := IfcWindow.Width window in
  let sillHeight := IfcWindow.Sill_Height window in
  let '(loc_x, _, loc_y) := IfcWindow.Location window in
  let '(wall_name, wall_length) := locate_wall select_box in
  if excelFormat then
    [PList [PNum 2; PStr (IfcWindow.Name window)];
     PList [PNum 3; PStr (IfcWindow.Tag window)];
     PList [PNum 4; PNum (round3 windowHeight)];
     PList [PNum 5; PNum (round3 windowWidth)];
     PList [PNum 6; match sillHeight with Some v => PNum v | None => PNone end]]
  else
    [PStr (IfcWindow.Tag window);
     PNum (round3 windowHeight);
     PNum (round3 windowWidth);
     match sillHeight with Some v => PNum (round3 v) | None => PNone end;
     PStr wall_name;
     wall_length;
     PNum loc_x;
     PNum loc_y].

(** One entry of [windowOut]: [intersectingObjects] for a space with
    [windowsOnly] set and no excel formatting; [windows] are the
    [IfcWindow] elements of [t.select_box(space, extend=0.5)], each with
    the result of its own wall query. *)
Definition intersectingObjects (space : IfcSpace.t)
  (windows : list (IfcWindow.t * list IfcElement.t)) : list pyval :=
  [PStr (IfcSpace.LongName space); PStr (IfcSpace.Name space)]
  ++ map (fun w => PList (windowParams (fst w) (snd w) false)) windows.

(** ** Part 2: the room tree *)

Module Window.
Record t : Type := {
  name : pyval;
  wx : pyval;
  wy : pyval;
  sillHeight : pyval;
  wall_name : pyval;
  wall_length : pyval;
  loc_x : pyval;
  loc_y : pyval
}.

(** [window.loc_x = v] *)
Definition set_loc_x (w : t) (v : pyval) : t :=
  {| name := name w; wx := wx w; wy := wy w; sillHeight := sillHeight w;
     wall_name := wall_name w; wall_length := wall_length w;
     loc_x := v; loc_y := loc_y w |}.
End Window.

Module Space.
Record t : Type := {
  longName : pyval;
  name : pyval;
  windows : list Window.t;
  sx : pyval;
  sy : pyval;
  sz : pyval
}.

Definition set_windows (s : t) (ws : list Window.t) : t :=
  {| longName := longName s; name := name s; windows := ws;
     sx := sx s; sy := sy s; sz := sz s |}.
End Space.

(** The two module-level lists of [main.py] that every [Spaces] object
    is built from. Their records are distinct list objects. *)
Record store : Type := {
  spaceOut : list (list pyval);
  windowOut : list (list pyval)
}.

(** The body of [for i in range(2, len(windowParam))] for one entry
    [windowParam[i]]: the [Window] it appends. *)
Definition Window_of (windowParam_i : pyval) : res Window.t :=
  windowName <- py_getitem windowParam_i 0 ;;
  wx <- py_getitem windowParam_i 1 ;;
  wy <- py_getitem windowParam_i 2 ;;
  sillHeight <- py_getitem windowParam_i 3 ;;
  let sillHeight := if py_eq sillHeight PNone then PNum 0.1 else sillHeight in
  wall_name <- py_getitem windowParam_i 4 ;;
  wall_length <- py_getitem windowParam_i 5 ;;
  loc_x <- py_getitem windowParam_i 6 ;;
  loc_y <- py_getitem windowParam_i 7 ;;
  Ok (Window.Build_t windowName wx wy sillHeight wall_name wall_length
        loc_x loc_y).

(** The body of [for windowParam in windowOut] over the pair
    [(spaceParam, windows)]. The guard [i != 0 or i != 1] of the inner
    loop holds for every [i]. *)
Definition append_windows (st : list pyval * list Window.t)
  (windowParam : list pyval) : res (list pyval * list Window.t) :=
  let '(spaceParam, windows) := st in
  window_code <- subscript windowParam 1 ;;
  space_code <- subscript spaceParam 1 ;;
  if py_eq window_code space_code then
    let spaceParam := spaceParam ++ [PList (skipn 2 windowParam)] in
    new <- mapM Window_of (skipn 2 windowParam) ;;
    Ok (spaceParam, windows ++ new)
  else Ok (spaceParam, windows).

(** The body of [for spaceParam in spaceOut]: the [Space] appended to
    [self.spaces], and [spaceParam] as the loop leaves it. *)
Definition assemble_space (windowOut : list (list pyval))
  (spaceParam : list pyval) : res (Space.t * list pyval) :=
  longName <- subscript spaceParam 0 ;;
  spaceId <- subscript spaceParam 1 ;;
  sx <- subscript spaceParam 2 ;;
  sy <- subscript spaceParam 3 ;;
  sz <- subscript spaceParam 4 ;;
  r <- for_each append_windows windowOut (spaceParam, []) ;;
  Ok (Space.Build_t longName spaceId (snd r) sx sy sz, fst r).

(** [Spaces(spaceOut, windowOut)]: [self.spaces], and the two lists
    afterwards. *)
Definition Spaces_init (st : store) : res (list Space.t * store) :=
  r <- mapM (assemble_space (windowOut st)) (spaceOut st) ;;
  Ok (map fst r, {| spaceOut := map snd r; windowOut := windowOut st |}).

(** ** Part 2: placement of windows on the honeybee room *)

Module HBFenSurface.
Record t : Type := {
  name : pyval;                           (* [str] of this value *)
  glzpts : list (pyval * pyval * pyval)
}.
End HBFenSurface.

Module HBSurface.
Record t : Type := {
  str : string;                           (* [str(surface)] *)
  fenestration : list HBFenSurface.t
}.

Definition add_fenestration_surface (s : t) (f : HBFenSurface.t) : t :=
  {| str := str s; fenestration := fenestration s ++ [f] |}.
End HBSurface.

Module Room.
Record t : Type := {
  width : pyval;
  depth : pyval;
  height : pyval;
  surfaces : list HBSurface.t
}.

(** [surfaces[k].add_fenestration_surface(f)] *)
Definition add_fenestration (r : t) (k : nat) (f : HBFenSurface.t) : t :=
  {| width := width r; depth := depth r; height := height r;
     surfaces :=
       match nth_error (surfaces r) k with
       | Some s =>
           firstn k (surfaces r)
           ++ HBSurface.add_fenestration_surface s f :: skipn (S k) (surfaces r)
       | None => surfaces r
       end |}.
End Room.

(** [x in s] for a string [s]: [x] must be a string. *)
Definition py_in_str (x : pyval) (s : string) : res bool :=
  match x with
  | PStr n =>
      Ok (match String.index 0 n s with Some _ => true | None => false end)
  | _ => Raise TypeError
  end.

(** [for i in space.room.surfaces: if window.wall_name in str(i):
    hbsurface = i]. The variable [hbsurface] holds the position of the
    surface in [surfaces]; it is unbound ([None]) until a surface
    matches, and [k] is the position of the head of [surfaces]. *)
Fixpoint find_hbsurface (wall_name : pyval) (surfaces : list HBSurface.t)
  (k : nat) (hbsurface : option nat) : res (option nat) :=
  match surfaces with
  | [] => Ok hbsurface
  | i :: rest =>
      b <- py_in_str wall_name (HBSurface.str i) ;;
      find_hbsurface wall_name rest (S k) (if b then Some k else hbsurface)
  end.

(** [if window.loc_x > space.sx and window.loc_x > space.sy:
    window.loc_x = window.wall_length - window.loc_x - window.wx] *)
Definition correct_loc_x (space : Space.t) (window : Window.t) : res Window.t :=
  over_sx <- py_gt (Window.loc_x window) (Space.sx space) ;;
  over_both <- (if over_sx : bool
                then py_gt (Window.loc_x window) (Space.sy space)
                else Ok false) ;;
  if over_both : bool then
    d <- py_sub (Window.wall_length window) (Window.loc_x window) ;;
    x <- py_sub d (Window.wx window) ;;
    Ok (Window.set_loc_x window x)
  else Ok window.

(** [glzpts]: the four corners of the glazing. *)
Definition glazing_points (window : Window.t)
  : res (list (pyval * pyval * pyval)) :=
  let loc_x := Window.loc_x window in
  let loc_y := Window.loc_y window in
  x1 <- py_add loc_x (Window.wx window) ;;
  x2 <- py_add loc_x (Window.wx window) ;;
  y2 <- py_add loc_y (Window.wy window) ;;
  y3 <- py_add loc_y (Window.wy window) ;;
  Ok [(loc_x, PNum 0, loc_y);
      (x1, PNum 0, loc_y);
      (x2, PNum 0, y2);
      (loc_x, PNum 0, y3)].

(** [Analysis.__addWindows(space, window)], with [room] for
    [space.room]: the room and the window afterwards. *)
Definition addWindows (space : Space.t) (room : Room.t) (window : Window.t)
  : res (Room.t * Window.t) :=
  hbsurface <- find_hbsurface (Window.wall_name window) (Room.surfaces room)
                 0 None ;;
  window <- correct_loc_x space window ;;
  glzpts <- glazing_points window ;;
  let glzsrf := {| HBFenSurface.name := Window.name window;
                   HBFenSurface.glzpts := glzpts |} in
  match hbsurface with
  | None => Raise UnboundLocalError
  | Some k => Ok (Room.add_fenestration room k glzsrf, window)
  end.

Section Honeybee.

(** The surfaces honeybee's [Room] constructor builds for a room. *)
Variable Room_surfaces : list HBSurface.t.

(** [Analysis.__createRoom(space)] *)
Definition createRoom (space : Space.t) : Room.t :=
  {| Room.width := Space.sx space;
     Room.depth := Space.sy space;
     Room.height := Space.sz space;
     Room.surfaces := Room_surfaces |}.

(** [for window in space.windows: self.__addWindows(space, window)] *)
Definition place_window (space : Space.t) (st : Room.t * list Window.t)
  (window : Window.t) : res (Room.t * list Window.t) :=
  r <- addWindows space (fst st) window ;;
  Ok (fst r, snd st ++ [snd r]).

(** [Analysis.__init__]: every space with its room, and the two lists
    afterwards. *)
Definition Analysis_init (st : store)
  : res (list (Space.t * Room.t) * store) :=
  r <- Spaces_init st ;;
  rooms <- mapM (fun space =>
                   p <- for_each (place_window space) (Space.windows space)
                          (createRoom space, []) ;;
                   Ok (Space.set_windows space (snd p), fst p))
             (fst r) ;;
  Ok (rooms, snd r).

End Honeybee.

(** ** Part 1: walls, doors and the rows of a space *)

(** Whole numbers (columns, counts) as Python values. *)
Definition PInt (n : nat) : pyval := PNum (inject_Z (Z.of_nat n)).

(** [needle in hay] on strings. *)
Definition contains (needle hay : string) : bool :=
  match String.index 0 needle hay with
  | Some _ => true
  | None => false
  end.

(** [str(x)] of an optional name. *)
Definition str_of (name : option string) : string :=
  match name with
  | Some s => s
  | None => "None"
  end.

Definition val_of (name : option string) : pyval :=
  match name with
  | Some s => PStr s
  | None => PNone
  end.

(** An entry of [IsDefinedBy]. A property is its [Name] and its
    [NominalValue.wrappedValue]; Python's [True] and [False] are the
    numbers 1 and 0. *)
Inductive IfcRelDefines : Type :=
| IfcRelDefinesByProperties (HasProperties : list (string * pyval))
| IfcRelDefinesByType.

Module IfcMaterialLayer.
Record t : Type := {
  Material_Name : string;     (* str(layer.Material.Name) *)
  LayerThickness : string     (* str(layer.LayerThickness) *)
}.
End IfcMaterialLayer.

(** A wall: every entry of [HasAssociations] is the list
    [RelatingMaterial.ForLayerSet.MaterialLayers] of one association. *)
Module IfcWall.
Record t : Type := {
  Name : option string;
  Tag : pyval;
  IsDefinedBy : list IfcRelDefines;
  HasAssociations : list (list IfcMaterialLayer.t)
}.
End IfcWall.

Module IfcDoor.
Record t : Type := {
  Name : string;
  Tag : pyval;
  OverallHeight : Q;
  OverallWidth : Q;
  IsDefinedBy : list IfcRelDefines
}.
End IfcDoor.

(** The body of [for MaterialLayers in ...MaterialLayers] over
    [(out, col)]. *)
Definition layer_rows (st : list pyval * nat) (layer : IfcMaterialLayer.t)
  : list pyval * nat :=
  let '(out, col) := st in
  (out ++ [PList [PInt col; PStr (IfcMaterialLayer.Material_Name layer)];
           PList [PInt (col + 1); PStr (IfcMaterialLayer.LayerThickness layer)]],
   (col + 2)%nat).

(** The body of [for relAssociatesMaterial in ifcElement.HasAssociations]
    over [(out, col)]; [most_materials] is never read. *)
Definition association_rows (st : list pyval * nat)
  (MaterialLayers : list IfcMaterialLayer.t) : list pyval * nat :=
  let '(out, col) := st in
  let num_materials := length MaterialLayers in
  let out := out ++ [PList [PInt col; PInt num_materials]] in
  let col := (col + 1)%nat in
  fold_left layer_rows MaterialLayers (out, col).

(** [getMaterialAndQuantities(ifcElement)] *)
Definition getMaterialAndQuantities (ifcElement : IfcWall.t) : list pyval :=
  if negb (contains "Roof" (str_of (IfcWall.Name ifcElement)))
  then fst (fold_left association_rows (IfcWall.HasAssociations ifcElement)
              ([], 5%nat))
  else [].

(** The values of the properties called "IsExternal", in order. *)
Definition IsExternal_values (IsDefinedBy : list IfcRelDefines) : list pyval :=
  flat_map (fun relDefinesByProperties =>
              match relDefinesByProperties with
              | IfcRelDefinesByProperties props =>
                  flat_map (fun prop =>
                              if String.eqb (fst prop) "IsExternal"
                              then [snd prop]
                              else []) props
              | IfcRelDefinesByType => []
              end) IsDefinedBy.

(** [wallParams(wall)] *)
Definition wallParams (wall : IfcWall.t) : list pyval :=
  let outWall := [PList [PNum 2; val_of (IfcWall.Name wall)];
                  PList [PNum 3; IfcWall.Tag wall]] in
  let outWall :=
    outWall ++ map (fun v => PList [PNum 4; v])
                 (IsExternal_values (IfcWall.IsDefinedBy wall)) in
  outWall ++ getMaterialAndQuantities wall.

(** [doorParams(door)]: the two branches differ in the label alone. *)
Definition doorParams (door : IfcDoor.t) : list pyval :=
  let doorHeight := IfcDoor.OverallHeight door in
  let doorWidth := IfcDoor.OverallWidth door in
  [PList [PNum 2; PStr (IfcDoor.Name door)];
   PList [PNum 3; IfcDoor.Tag door];
   PList [PNum 4; PStr (if contains "Glass" (IfcDoor.Name door)
                        then "External Glass Door"
                        else "External No-glass Door")];
   PList [PNum 5; PNum (round3 doorHeight)];
   PList [PNum 6; PNum (round3 doorWidth)]].

(** An element of [t.select_box(space, extend=0.5)]; a window comes
    with the result of its own wall query. *)
Inductive box_element : Type :=
| BoxWindow (window : IfcWindow.t) (select_box : list IfcElement.t)
| BoxDoor (door : IfcDoor.t)
| BoxOther.

(** [obj.RelatedBuildingElement] of an entry of [space.BoundedBy]. *)
Inductive bounding : Type :=
| NoElement
| BoundingWall (wall : IfcWall.t)
| BoundingOther.

(** A space with what the model returns around it. *)
Module Located.
Record t : Type := {
  space : IfcSpace.t;
  select_box : list box_element;
  BoundedBy : list bounding
}.
End Located.

(** [intersectingObjects(space, debug, windowsOnly, doorsOnly,
    wallsOnly, excelFormat)] *)
Definition intersectingObjects_flags (s : Located.t)
  (windowsOnly doorsOnly wallsOnly excelFormat : bool) : list pyval :=
  let space := Located.space s in
  let out :=
    if excelFormat
    then [PList [PList [PNum 0; PStr (IfcSpace.LongName space); PFormat];
                 PList [PNum 1; PStr (IfcSpace.Name space); PFormat];
                 PList [PNum 2; PStr " "; PFormat];
                 PList [PNum 3; PStr " "; PFormat];
                 PList [PNum 4; PStr " "; PFormat];
                 PList [PNum 5; PStr " "; PFormat];
                 PList [PNum 6; PStr " "; PFormat]]]
    else [PStr (IfcSpace.LongName space); PStr (IfcSpace.Name space)] in
  let out :=
    out ++ flat_map
             (fun obj =>
                match obj with
                | BoxWindow window box =>
                    if windowsOnly
                    then [PList (windowParams window box excelFormat)]
                    else []
                | BoxDoor door =>
                    if doorsOnly
                    then flat_map (fun v =>
                                     if py_eq v (PNum 1)
                                     then [PList (doorParams door)]
                                     else [])
                           (IsExternal_values (IfcDoor.IsDefinedBy door))
                    else []
                | BoxOther => []
                end) (Located.select_box s) in
  out ++ flat_map
           (fun obj =>
              match obj with
              | BoundingWall wall =>
                  if wallsOnly then [PList (wallParams wall)] else []
              | _ => []
              end) (Located.BoundedBy s).

(** [spaceFunc(spaces, functions, nested=True, ...)] *)
Definition spaceFunc_nested {A : Type} (spaces : list A)
  (functions : list (A -> bool -> bool -> bool -> bool -> list pyval))
  (windowsOnly doorsOnly wallsOnly excelFormat : bool) : list pyval :=
  flat_map (fun space =>
              flat_map (fun f =>
                          let rows := f space windowsOnly doorsOnly wallsOnly
                                        excelFormat in
                          if excelFormat then rows else [PList rows])
                functions) spaces.

(** [spaceFunc(spaces, functions)], not nested: [out.append(f(space))]. *)
Definition spaceFunc {A : Type} (spaces : list A)
  (functions : list (A -> res pyval)) : res (list pyval) :=
  rows <- mapM (fun space => mapM (fun f => f space) functions) spaces ;;
  Ok (concat rows).

(** What [spaceDims] returns, as a value. *)
Definition spaceDims_value (space : IfcSpace.t) : res pyval :=
  r <- spaceDims space ;;
  Ok (match r with
      | Some rows => PList rows
      | None => PNone
      end).

(** Module level of [main.py]: [windowOut], its empty entries removed.
    [SpaceParams] is built with no [excelFormat] and leaves the list as
    it is. *)
Definition windowOut_of (spaces : list Located.t) : res (list pyval) :=
  out <- SpaceParams
           (Some (spaceFunc_nested spaces [intersectingObjects_flags]
                    true false false false))
           None ;;
  Ok (filter (fun x => negb (py_eq x (PList [])))
        (match out with Some l => l | None => [] end)).

(** [getMaterialAndQuantitiesHeaders(spaces)] *)
Definition getMaterialAndQuantitiesHeaders (spaces : list Located.t) : nat :=
  fold_left
    (fun most_materials s =>
       fold_left
         (fun most_materials obj =>
            match obj with
            | BoundingWall wall =>
                if negb (contains "Roof" (str_of (IfcWall.Name wall)))
                then fold_left
                       (fun most_materials MaterialLayers =>
                          let num_materials := length MaterialLayers in
                          if (most_materials <? num_materials)%nat
                          then num_materials
                          else most_materials)
                       (IfcWall.HasAssociations wall) most_materials
                else most_materials
            | _ => most_materials
            end) (Located.BoundedBy s) most_materials)
    spaces 0%nat.

(** ** Part 1: writing the rows to a worksheet *)

(** One call of [sheet.write(row, col, text)] or
    [sheet.write(row, col, text, formatting)]. *)
Record cell_write : Type := {
  write_row : Z;
  write_col : pyval;
  write_text : pyval;
  write_formatting : option pyval
}.

(** What [excelWrite] can raise: its own [Exception("DataError", ...)]
    or an exception of Python. *)
Inductive write_error : Type :=
| DataError
| PyError (e : exn).

(** [len(v)] *)
Definition py_len (v : pyval) : res nat :=
  match v with
  | PList l => Ok (length l)
  | PStr s => Ok (String.length s)
  | _ => Raise TypeError
  end.

(** The elements iteration over [v] yields. *)
Definition py_iter (v : pyval) : res (list pyval) :=
  match v with
  | PList l => Ok l
  | PStr s => Ok (chars s)
  | _ => Raise TypeError
  end.

(** [for val in lines[i]] at row [row]: the sheet afterwards and the
    exception that ended the loop, if one did. *)
Fixpoint write_line (row : Z) (vals : list pyval) (sheet : list cell_write)
  : list cell_write * option write_error :=
  match vals with
  | [] => (sheet, None)
  | val :: rest =>
      match py_len val, py_iter val with
      | Ok 2%nat, Ok [col; text] =>
          write_line row rest
            (sheet ++ [{| write_row := row; write_col := col;
                          write_text := text; write_formatting := None |}])
      | Ok 3%nat, Ok [col; text; formatting] =>
          write_line row rest
            (sheet ++ [{| write_row := row; write_col := col;
                          write_text := text;
                          write_formatting := Some formatting |}])
      | Ok _, _ => (sheet, Some DataError)
      | Raise e, _ => (sheet, Some (PyError e))
      end
  end.

(** [for i in range(0, len(lines))], from index [i] on. *)
Fixpoint excelWrite_from (i i_adjust : Z) (lines : list pyval)
  (sheet : list cell_write) : list cell_write * option write_error :=
  match lines with
  | [] => (sheet, None)
  | line :: rest =>
      if py_eq line PNone
      then excelWrite_from (i + 1) (i_adjust - 1) rest sheet
      else
        match py_iter line with
        | Raise e => (sheet, Some (PyError e))
        | Ok vals =>
            match write_line (i + 1 + i_adjust) vals sheet with
            | (sheet', None) => excelWrite_from (i + 1) i_adjust rest sheet'
            | (sheet', Some e) => (sheet', Some e)
            end
        end
  end.

(** [excelWrite(sheet, lines)] *)
Definition excelWrite (sheet : list cell_write) (lines : list pyval)
  : list cell_write * option write_error :=
  excelWrite_from 0 0 lines sheet.

(** ** Part 2: the results *)

(** The loop of [resultsOut] over the values [value[0]]:
    [(count, countT)]. *)
Definition count_points (values : list Q) : nat * nat :=
  fold_left (fun st value =>
               let DFpoint := value / 10000 * 100 in
               (if Qle_bool 2.1 DFpoint then S (fst st) else fst st,
                S (snd st)))
    values (0%nat, 0%nat).

(** [DFresult = count / countT * 100]; [None] is [ZeroDivisionError]. *)
Definition DFresult (values : list Q) : option Q :=
  let '(count, countT) := count_points values in
  match countT with
  | O => None
  | _ => Some (inject_Z (Z.of_nat count) / inject_Z (Z.of_nat countT) * 100)
  end.

(** The verdict printed: [DFresult >= 50]. *)
Definition passes (values : list Q) : option bool :=
  option_map (fun r => Qle_bool 50 r) (DFresult values).

(** [range(0, stop, step)] for a positive [step]. *)
Definition range_from_0 (stop step : nat) : list nat :=
  map (fun k => (k * step)%nat) (seq 0 ((stop + step - 1) / step)).

(** [z = [resultList[i : i + dim] for i in range(0, len(resultList),
    dim)]]: [range] refuses a step of 0 and is empty for a negative
    one. *)
Definition plot_rows (dim : Z) (resultList : list Q) : res (list (list Q)) :=
  match dim with
  | Z0 => Raise ValueError
  | Zneg _ => Ok []
  | Zpos _ =>
      let d := Z.to_nat dim in
      Ok (map (fun i => firstn d (skipn i resultList))
            (range_from_0 (length resultList) d))
  end.

(** * Definitions used by the statements *)

(** ** Reading the results of [min] and [max] *)

(** Two results of [min] (or [max]) that stand for the same number, or
    the same exception. *)
Definition same_number (a b : res Q) : Prop :=
  match a, b with
  | Ok x, Ok y => x == y
  | Raise e, Raise e' => e = e'
  | _, _ => False
  end.

(** ** Points with enough coordinates *)

(** Every point has a coordinate number [k]. *)
Definition has_coordinate (k : nat) (points : list (list Q)) : bool :=
  forallb (fun point => (k <? length point)%nat) points.

(** ** Well-formed lists and what the assembler builds from them *)

(** [l[k]] where it exists. *)
Definition field (l : list pyval) (k : nat) : pyval := nth k l PNone.

Definition fields (v : pyval) : list pyval :=
  match v with
  | PList l => l
  | _ => []
  end.

(** Shapes on which [Spaces.__init__] raises nothing: a window entry is
    a list of eight values or more, an entry of [windowOut] holds a name
    and a code before its windows, a room record holds five values or
    more. *)
Definition wf_window (v : pyval) : bool :=
  match v with
  | PList l => (8 <=? length l)%nat
  | _ => false
  end.

Definition wf_windowParam (windowParam : list pyval) : bool :=
  (2 <=? length windowParam)%nat && forallb wf_window (skipn 2 windowParam).

Definition wf_spaceParam (spaceParam : list pyval) : bool :=
  (5 <=? length spaceParam)%nat.

Definition wf_store (st : store) : bool :=
  forallb wf_spaceParam (spaceOut st) && forallb wf_windowParam (windowOut st).

(** The window built from a well-formed entry. *)
Definition window_record (v : pyval) : Window.t :=
  let l := fields v in
  {| Window.name := field l 0;
     Window.wx := field l 1;
     Window.wy := field l 2;
     Window.sillHeight :=
       match field l 3 with
       | PNone => PNum 0.1
       | given => given
       end;
     Window.wall_name := field l 4;
     Window.wall_length := field l 5;
     Window.loc_x := field l 6;
     Window.loc_y := field l 7 |}.

(** The window entry's room code is the room record's code. *)
Definition belongs_to (spaceParam windowParam : list pyval) : bool :=
  py_eq (field windowParam 1) (field spaceParam 1).

(** The windows of the entries of [windowOut] that belong to the room,
    in the order of [windowOut]. *)
Definition windows_of (spaceParam : list pyval) (windowOut : list (list pyval))
  : list Window.t :=
  flat_map (fun windowParam =>
              if belongs_to spaceParam windowParam
              then map window_record (skipn 2 windowParam)
              else []) windowOut.

(** What the loop appends to the room record: one list per entry of
    [windowOut] that belongs to the room. *)
Definition appended_to (spaceParam : list pyval) (windowOut : list (list pyval))
  : list pyval :=
  flat_map (fun windowParam =>
              if belongs_to spaceParam windowParam
              then [PList (skipn 2 windowParam)]
              else []) windowOut.

Definition space_record (windowOut : list (list pyval)) (spaceParam : list pyval)
  : Space.t :=
  {| Space.longName := field spaceParam 0;
     Space.name := field spaceParam 1;
     Space.windows := windows_of spaceParam windowOut;
     Space.sx := field spaceParam 2;
     Space.sy := field spaceParam 3;
     Space.sz := field spaceParam 4 |}.

(** ** Scenarios *)

(** The assembly scenario: the room "A203" and two window entries, one
    of its own and one of the room "B101". A window entry is
    [[tag, wx, wy, sill height, wall name, wall length, loc_x, loc_y]]. *)
Definition window_W1 : pyval :=
  PList [PStr "W1"; PNum 1; PNum 1.5; PNone; PStr "left"; PNum 4; PNum 5; PNum 1.2].

Definition window_W2 : pyval :=
  PList [PStr "W2"; PNum 1.5; PNum 1; PNum 0.9; PStr "back"; PNum 6; PNum 1; PNum 0.9].

Definition room_A203 : list pyval :=
  [PStr "Bedroom"; PStr "A203"; PNum 3; PNum 4; PNum 2.5].

Definition scenario : store :=
  {| spaceOut := [room_A203];
     windowOut := [[PStr "Bedroom"; PStr "A203"; window_W1];
                   [PStr "Kitchen"; PStr "B101"; window_W2]] |}.

Definition bedroom_3_by_4 : IfcSpace.t :=
  {| IfcSpace.LongName := "Bedroom";
     IfcSpace.Name := "A203";
     IfcSpace.prop := IfcRectangleProfileDef 3 4;
     IfcSpace.Unbounded_Height := 2.5 |}.

(** The room and the window of the round-trip scenario: width 3, depth
    4; raw location (5, 1.2), wall length 4, opening width 1. *)
Definition scenario_space : Space.t :=
  space_record (windowOut scenario) room_A203.

Definition scenario_window : Window.t := window_record window_W1.

(** ** Orientations *)

(** The orientations of the data model and the [wall_name] that stands
    for each: [Unknown] is the empty [wall_name] the search starts
    with. *)
Inductive Orientation : Type := Front | Back | Left | Right | Unknown.

Definition wall_name_of (o : Orientation) : string :=
  match o with
  | Front => "front"
  | Back => "back"
  | Left => "left"
  | Right => "right"
  | Unknown => EmptyString
  end.

Definition is_wall (e : IfcElement.t) : bool :=
  IfcElement.is_a e "IfcWallStandardCase".

(** Two walls around an opening: one of length 5 along (0,1,0), then one
    of length 7 along (1,0,0), a direction that is none of the four. *)
Definition wall_left_5 : IfcElement.t :=
  {| IfcElement.ifc_class := "IfcWallStandardCase";
     IfcElement.Length := PNum 5;
     IfcElement.RefDirection := Some [0; 1; 0] |}.

Definition wall_other_7 : IfcElement.t :=
  {| IfcElement.ifc_class := "IfcWallStandardCase";
     IfcElement.Length := PNum 7;
     IfcElement.RefDirection := Some [1; 0; 0] |}.

(** ** A room and a window with no orientation *)

(** A room of six surfaces, none with a window yet. *)
Definition six_surfaces : list HBSurface.t :=
  map (fun n => {| HBSurface.str := n; HBSurface.fenestration := [] |})
    ["floor"; "ceiling"; "back"; "right"; "front"; "left"]%string.

(** A window whose wall was given no orientation. *)
Definition window_W3 : Window.t :=
  {| Window.name := PStr "W3"; Window.wx := PNum 1; Window.wy := PNum 1.5;
     Window.sillHeight := PNum 0.9; Window.wall_name := PStr EmptyString;
     Window.wall_length := PNum 4; Window.loc_x := PNum 1;
     Window.loc_y := PNum 0.9 |}.

(** ** Lines of a worksheet *)

(** A cell the writer accepts: a list of two or of three values. *)
Definition wf_cell (v : pyval) : bool :=
  match v with
  | PList [_; _] => true
  | PList [_; _; _] => true
  | _ => false
  end.

(** A line the writer accepts: [None], or a list of such cells. *)
Definition wf_line (v : pyval) : bool :=
  match v with
  | PNone => true
  | PList cells => forallb wf_cell cells
  | _ => false
  end.

(** The call of [sheet.write] for a cell on row [row]. *)
Definition cell_write_at (row : Z) (cell : pyval) : cell_write :=
  match cell with
  | PList [col; text; formatting] =>
      {| write_row := row; write_col := col; write_text := text;
         write_formatting := Some formatting |}
  | _ =>
      {| write_row := row; write_col := field (fields cell) 0;
         write_text := field (fields cell) 1; write_formatting := None |}
  end.

(** The calls for [lines] when the first line that is not [None] goes
    to row [row], the next one to the row after it, and so on: a [None]
    line takes no row. *)
Fixpoint writes_from (row : Z) (lines : list pyval) : list cell_write :=
  match lines with
  | [] => []
  | PNone :: rest => writes_from row rest
  | line :: rest =>
      map (cell_write_at row) (fields line) ++ writes_from (row + 1) rest
  end.

(** The column of a row [[col, value]]. *)
Definition column_of (row : pyval) : pyval := field (fields row) 0.

(** ** Spaces the analysis can use *)

(** A hallway or a roof space: [spaceDims] skips it. *)
Definition excluded (space : IfcSpace.t) : bool :=
  String.eqb (IfcSpace.LongName space) "Hallway"
  || String.eqb (IfcSpace.LongName space) "Roof".

(** The profile is a rectangle, or a polygon of one point or more whose
    points all have an x and a y. *)
Definition has_bounds (space : IfcSpace.t) : bool :=
  match IfcSpace.prop space with
  | IfcRectangleProfileDef _ _ => true
  | IfcArbitraryClosedProfileDef points =>
      match points with
      | [] => false
      | _ :: _ => has_coordinate 1 points
      end
  | OtherProfile => false
  end.

Definition analysable (space : IfcSpace.t) : bool :=
  excluded space || has_bounds space.

(** The number of "IsExternal" properties of a door that are [True]. *)
Definition external_count (door : IfcDoor.t) : nat :=
  length (filter (fun v => py_eq v (PNum 1))
            (IsExternal_values (IfcDoor.IsDefinedBy door))).

(** A point moved by [(dx, dy)]. *)
Definition translate (dx dy : Q) (point : list Q) : list Q :=
  match point with
  | x :: y :: rest => (x + dx) :: (y + dy) :: rest
  | _ => point
  end.

Definition is_num (v : pyval) : bool :=
  match v with
  | PNum _ => true
  | _ => false
  end.

(** The test of [resultsOut] on one value. *)
Definition over_threshold (value : Q) : bool :=
  Qle_bool 2.1 (value / 10000 * 100).

(** The windows among the elements around a space, each with its wall
    query. *)
Definition windows_in (select_box : list box_element)
  : list (IfcWindow.t * list IfcElement.t) :=
  flat_map (fun obj =>
              match obj with
              | BoxWindow window box => [(window, box)]
              | _ => []
              end) select_box.

(** A model of two spaces: the bedroom, with one window set in the wall
    [wall_left_5], and a hallway with a door. *)
Definition model_scenario : list Located.t :=
  [{| Located.space := bedroom_3_by_4;
      Located.select_box :=
        [BoxWindow {| IfcWindow.Name := "Fixed 1000 x 1500";
                      IfcWindow.Tag := "W1";
                      IfcWindow.Height := 1.5;
                      IfcWindow.Width := 1;
                      IfcWindow.Sill_Height := None;
                      IfcWindow.Location := (5, 0, 1.2) |}
           [wall_left_5];
         BoxOther];
      Located.BoundedBy := [NoElement] |};
   {| Located.space :=
        {| IfcSpace.LongName := "Hallway"; IfcSpace.Name := "A100";
           IfcSpace.prop := OtherProfile;
           IfcSpace.Unbounded_Height := 2.5 |};
      Located.select_box :=
        [BoxDoor {| IfcDoor.Name := "Glass Door"; IfcDoor.Tag := PStr "D1";
                    IfcDoor.OverallHeight := 2.1; IfcDoor.OverallWidth := 0.9;
                    IfcDoor.IsDefinedBy :=
                      [IfcRelDefinesByProperties
                         [("IsExternal"%string, PNum 1)]] |}];
      Located.BoundedBy := [] |}].

(** A space whose profile is neither a rectangle nor a polygon. *)
Definition attic_other_profile : IfcSpace.t :=
  {| IfcSpace.LongName := "Attic"; IfcSpace.Name := "A301";
     IfcSpace.prop := OtherProfile;
     IfcSpace.Unbounded_Height := 2.5 |}.

(** A space with an L-shaped polygon profile. *)
Definition foyer_polygon : IfcSpace.t :=
  {| IfcSpace.LongName := "Foyer"; IfcSpace.Name := "A101";
     IfcSpace.prop :=
       IfcArbitraryClosedProfileDef
         [[0; 0]; [4; 0]; [4; 2]; [2; 2]; [2; 3]; [0; 3]];
     IfcSpace.Unbounded_Height := 2.5 |}.

(** The fields [__addWindows] computes with are numbers. *)
Definition numeric_window (window : Window.t) : bool :=
  is_num (Window.loc_x window) && is_num (Window.loc_y window)
  && is_num (Window.wx window) && is_num (Window.wy window)
  && is_num (Window.wall_length window).

Definition numeric_space (space : Space.t) : bool :=
  is_num (Space.sx space) && is_num (Space.sy space).

(** The string of the surface does not contain the name. *)
Definition other_surface (n : string) (s : HBSurface.t) : bool :=
  negb (contains n (HBSurface.str s)).

(** A window on the wall "back", well inside a room 3 by 4. *)
Definition window_W4 : Window.t :=
  {| Window.name := PStr "W4"; Window.wx := PNum 1; Window.wy := PNum 1.5;
     Window.sillHeight := PNum 0.9; Window.wall_name := PStr "back";
     Window.wall_length := PNum 4; Window.loc_x := PNum 1;
     Window.loc_y := PNum 0.9 |}.

(** The same window with a wall name no surface carries. *)
Definition window_W5 : Window.t :=
  {| Window.name := PStr "W5"; Window.wx := PNum 1; Window.wy := PNum 1.5;
     Window.sillHeight := PNum 0.9; Window.wall_name := PStr "north";
     Window.wall_length := PNum 4; Window.loc_x := PNum 1;
     Window.loc_y := PNum 0.9 |}.

(** * Properties *)

(** ** Numbers *)

Lemma Qlt_bool_iff (x y : Q) : Qlt_bool x y = true <-> x < y.
Proof.
  unfold Qlt_bool. rewrite negb_true_iff. split; intro H.
  - apply Qnot_le_lt. intro Hle. apply Qle_bool_iff in Hle. congruence.
  - destruct (Qle_bool y x) eqn:E; [|reflexivity].
    apply Qle_bool_iff in E. exfalso. exact (Qlt_not_le _ _ H E).
Qed.

Lemma Qlt_bool_false_iff (x y : Q) : Qlt_bool x y = false <-> y <= x.
Proof.
  unfold Qlt_bool. rewrite negb_false_iff. apply Qle_bool_iff.
Qed.

Lemma round_half_even_comp (x y : Q) :
  x == y -> round_half_even x = round_half_even y.
Proof.
  intro H. unfold round_half_even.
  rewrite (Qfloor_comp _ _ H).
  assert (E : x - inject_Z (Qfloor y) == y - inject_Z (Qfloor y))
    by (rewrite H; reflexivity).
  rewrite (Qcompare_comp _ _ E _ _ (Qeq_refl (1 # 2))).
  reflexivity.
Qed.

(** Rounding sees the number, not the fraction that denotes it. *)
Lemma round3_comp (x y : Q) : x == y -> round3 x = round3 y.
Proof.
  intro H. unfold round3.
  rewrite (round_half_even_comp (x * 1000) (y * 1000)); [reflexivity|].
  rewrite H. reflexivity.
Qed.

Lemma round3_zero (x : Q) : x == 0 -> round3 x = 0.
Proof.
  intro H. rewrite (round3_comp x 0 H). reflexivity.
Qed.

(** ** Minimum and maximum of a list *)

Lemma fold_min_spec (vs : list Q) : forall v : Q,
  let m := fold_left (fun m x => if Qlt_bool x m then x else m) vs v in
  In m (v :: vs) /\ Forall (fun x => m <= x) (v :: vs).
Proof.
  induction vs as [|a vs IH]; intro v; cbn zeta.
  - simpl. split; [now left|]. constructor; [apply Qle_refl|constructor].
  - simpl fold_left.
    destruct (Qlt_bool a v) eqn:E.
    + destruct (IH a) as [Hin Hall]. split.
      * destruct Hin as [<-|Hin]; [right; now left|right; now right].
      * inversion Hall as [|? ? Ha Hvs]; subst.
        apply Qlt_bool_iff in E.
        constructor; [|constructor; assumption].
        apply Qle_trans with a; [assumption|now apply Qlt_le_weak].
    + destruct (IH v) as [Hin Hall]. split.
      * destruct Hin as [<-|Hin]; [now left|right; now right].
      * inversion Hall as [|? ? Hv Hvs]; subst.
        apply Qlt_bool_false_iff in E.
        constructor; [assumption|].
        constructor; [|assumption].
        apply Qle_trans with v; assumption.
Qed.

Lemma fold_max_spec (vs : list Q) : forall v : Q,
  let m := fold_left (fun m x => if Qlt_bool m x then x else m) vs v in
  In m (v :: vs) /\ Forall (fun x => x <= m) (v :: vs).
Proof.
  induction vs as [|a vs IH]; intro v; cbn zeta.
  - simpl. split; [now left|]. constructor; [apply Qle_refl|constructor].
  - simpl fold_left.
    destruct (Qlt_bool v a) eqn:E.
    + destruct (IH a) as [Hin Hall]. split.
      * destruct Hin as [<-|Hin]; [right; now left|right; now right].
      * inversion Hall as [|? ? Ha Hvs]; subst.
        apply Qlt_bool_iff in E.
        constructor; [|constructor; assumption].
        apply Qle_trans with a; [now apply Qlt_le_weak|assumption].
    + destruct (IH v) as [Hin Hall]. split.
      * destruct Hin as [<-|Hin]; [now left|right; now right].
      * inversion Hall as [|? ? Hv Hvs]; subst.
        apply Qlt_bool_false_iff in E.
        constructor; [assumption|].
        constructor; [|assumption].
        apply Qle_trans with v; assumption.
Qed.

Lemma py_min_perm (a b : list Q) :
  Permutation a b -> same_number (py_min a) (py_min b).
Proof.
  intro P. destruct a as [|x a], b as [|y b]; simpl.
  - reflexivity.
  - now apply Permutation_nil_cons in P.
  - apply Permutation_sym in P. now apply Permutation_nil_cons in P.
  - destruct (fold_min_spec a x) as [Hin Hall].
    destruct (fold_min_spec b y) as [Hin' Hall'].
    rewrite Forall_forall in Hall, Hall'.
    apply Qle_antisym.
    + apply Hall. apply Permutation_in with (y :: b); [now apply Permutation_sym|assumption].
    + apply Hall'. apply Permutation_in with (x :: a); assumption.
Qed.

Lemma py_max_perm (a b : list Q) :
  Permutation a b -> same_number (py_max a) (py_max b).
Proof.
  intro P. destruct a as [|x a], b as [|y b]; simpl.
  - reflexivity.
  - now apply Permutation_nil_cons in P.
  - apply Permutation_sym in P. now apply Permutation_nil_cons in P.
  - destruct (fold_max_spec a x) as [Hin Hall].
    destruct (fold_max_spec b y) as [Hin' Hall'].
    rewrite Forall_forall in Hall, Hall'.
    apply Qle_antisym.
    + apply Hall'. apply Permutation_in with (x :: a); assumption.
    + apply Hall. apply Permutation_in with (y :: b); [now apply Permutation_sym|assumption].
Qed.

(** ** The bounding box of a polygon profile *)

Lemma coordinate_spec (k : nat) (points : list (list Q)) :
  coordinate k points =
  if has_coordinate k points
  then Ok (map (fun point => nth k point 0) points)
  else Raise IndexError.
Proof.
  induction points as [|p points IH]; simpl; [reflexivity|].
  destruct (nth_error p k) as [v|] eqn:E.
  - assert (Hk : (k < length p)%nat)
      by (apply nth_error_Some; congruence).
    apply Nat.ltb_lt in Hk. rewrite Hk. simpl.
    rewrite IH. destruct (has_coordinate k points); simpl; [|reflexivity].
    now rewrite (nth_error_nth _ _ 0 E).
  - apply nth_error_None in E.
    assert (Hk : (k <? length p)%nat = false) by (apply Nat.ltb_ge; exact E).
    now rewrite Hk.
Qed.

Lemma has_coordinate_perm (k : nat) (l l' : list (list Q)) :
  Permutation l l' -> has_coordinate k l = has_coordinate k l'.
Proof.
  unfold has_coordinate.
  induction 1 as [|x l l' _ IH|x y l|l l' l'' _ IH1 _ IH2]; simpl.
  - reflexivity.
  - now rewrite IH.
  - now rewrite !andb_assoc, (andb_comm (k <? length y)%nat).
  - now rewrite IH1.
Qed.

Lemma arbiClosOut_perm_all (l l' : list (list Q)) :
  Permutation l l' -> arbiClosOut l [] = arbiClosOut l' [].
Proof.
  intro P. unfold arbiClosOut, arbiClosOut_points. simpl app.
  rewrite !coordinate_spec.
  rewrite <- (has_coordinate_perm 0 l l' P), <- (has_coordinate_perm 1 l l' P).
  destruct (has_coordinate 0 l); simpl; [|reflexivity].
  pose proof (Permutation_map (fun point => nth 0 point 0) P) as Px.
  pose proof (py_min_perm _ _ Px) as Hminx.
  pose proof (py_max_perm _ _ Px) as Hmaxx.
  destruct (py_min (map _ l)) as [minx|e], (py_min (map _ l')) as [minx'|e'];
    simpl in Hminx; try contradiction; simpl; [|now subst].
  destruct (has_coordinate 1 l); simpl; [|reflexivity].
  pose proof (Permutation_map (fun point => nth 1 point 0) P) as Py.
  pose proof (py_min_perm _ _ Py) as Hminy.
  pose proof (py_max_perm _ _ Py) as Hmaxy.
  destruct (py_min (map _ l)) as [miny|e], (py_min (map _ l')) as [miny'|e'];
    simpl in Hminy; try contradiction; simpl; [|now subst].
  destruct (py_max (map (fun point => nth 0 point 0) l)) as [maxx|e],
           (py_max (map (fun point => nth 0 point 0) l')) as [maxx'|e'];
    simpl in Hmaxx; try contradiction; simpl; [|now subst].
  destruct (py_max (map _ l)) as [maxy|e], (py_max (map _ l')) as [maxy'|e'];
    simpl in Hmaxy; try contradiction; simpl; [|now subst].
  rewrite (round3_comp (maxx - minx) (maxx' - minx')) by (now rewrite Hmaxx, Hminx).
  rewrite (round3_comp (maxy - miny) (maxy' - miny')) by (now rewrite Hmaxy, Hminy).
  reflexivity.
Qed.

(** C10. The rows [arbiClosOut] returns (the width and the depth of the
    bounding box) do not depend on the order of the profile's points:
    two profiles whose point lists are permutations of each other give
    the same result, the same exception included. *)
Theorem arbiClosOut_permutation (OuterCurve_Points OuterCurve_Points' points : list (list Q)) :
  Permutation OuterCurve_Points OuterCurve_Points' ->
  arbiClosOut OuterCurve_Points points = arbiClosOut OuterCurve_Points' points.
Proof.
  intro P.
  assert (E : forall ps, arbiClosOut ps points = arbiClosOut (points ++ ps) [])
    by reflexivity.
  rewrite !E. apply arbiClosOut_perm_all. now apply Permutation_app_head.
Qed.

Lemma arbiClosOut_permutation_witness :
  arbiClosOut [[0; 0]; [4; 0]; [4; 3]; [1; 5]] []
  = arbiClosOut [[4; 3]; [0; 0]; [1; 5]; [4; 0]] [].
Proof.
  apply (arbiClosOut_permutation
           [[0; 0]; [4; 0]; [4; 3]; [1; 5]] [[4; 3]; [0; 0]; [1; 5]; [4; 0]] []).
  apply Permutation_trans with ([4; 3] :: [[0; 0]; [4; 0]; [1; 5]]).
  - apply Permutation_sym.
    exact (Permutation_middle [[0; 0]; [4; 0]] [[1; 5]] [4; 3]).
  - apply perm_skip, perm_skip, perm_swap.
Defined.

(** A profile of points with an x and a y coordinate, and at least one
    point, has a bounding box: the computation raises nothing. *)
Lemma arbiClosOut_nonempty (p : list Q) (ps : list (list Q)) :
  has_coordinate 1 (p :: ps) = true ->
  exists XDim YDim : Q,
    arbiClosOut (p :: ps) []
    = Ok [PList [PNum 2; PNum (round3 XDim); PFormat];
          PList [PNum 3; PNum (round3 YDim); PFormat]].
Proof.
  intro H1.
  assert (H0 : has_coordinate 0 (p :: ps) = true).
  { unfold has_coordinate in *. rewrite forallb_forall in *.
    intros q Hq. specialize (H1 q Hq).
    apply Nat.ltb_lt in H1. apply Nat.ltb_lt. lia. }
  unfold arbiClosOut, arbiClosOut_points. simpl app.
  rewrite !coordinate_spec, H0, H1. simpl.
  eexists. eexists. reflexivity.
Qed.

(** C8, as the code has it. A profile of exactly one vertex (with an x
    and a y coordinate) yields width 0 and depth 0; a profile of no
    vertex does not: [min] of an empty sequence raises [ValueError]. *)
Theorem arbiClosOut_one_vertex :
  (forall (x y : Q) (rest : list Q),
     arbiClosOut [x :: y :: rest] []
     = Ok [PList [PNum 2; PNum 0; PFormat]; PList [PNum 3; PNum 0; PFormat]])
  /\ arbiClosOut [] [] = Raise ValueError.
Proof.
  split; [|reflexivity].
  intros x y rest. unfold arbiClosOut, arbiClosOut_points. simpl.
  rewrite (round3_zero (x - x)) by (unfold Qminus; apply Qplus_opp_r).
  rewrite (round3_zero (y - y)) by (unfold Qminus; apply Qplus_opp_r).
  reflexivity.
Qed.

(** C8 as stated fails on the profile with zero vertices: the
    computation raises instead of returning a zero-size box, and so
    does [spaceDims] on a space with that profile. *)
Lemma arbiClosOut_no_vertex_raises :
  arbiClosOut [] [] = Raise ValueError
  /\ spaceDims {| IfcSpace.LongName := "Foyer"; IfcSpace.Name := "A101";
                  IfcSpace.prop := IfcArbitraryClosedProfileDef [];
                  IfcSpace.Unbounded_Height := 2.5 |}
     = Raise ValueError.
Proof.
  split; reflexivity.
Qed.

(** ** The room tree *)

Lemma subscript_field (l : list pyval) (k : nat) :
  (k < length l)%nat -> subscript l k = Ok (field l k).
Proof.
  intro H. unfold subscript, field.
  destruct (nth_error l k) as [v|] eqn:E.
  - now rewrite (nth_error_nth _ _ PNone E).
  - apply nth_error_None in E. lia.
Qed.

Lemma mapM_total {A B : Type} (f : A -> res B) (g : A -> B) (l : list A) :
  (forall a, In a l -> f a = Ok (g a)) -> mapM f l = Ok (map g l).
Proof.
  induction l as [|a l IH]; intro H; simpl; [reflexivity|].
  rewrite (H a (or_introl eq_refl)). simpl.
  rewrite IH by (intros b Hb; apply H; now right).
  reflexivity.
Qed.

Lemma py_eq_None (v : pyval) : py_eq v PNone = true <-> v = PNone.
Proof.
  destruct v; simpl; split; congruence.
Qed.

Lemma Window_of_wf (v : pyval) :
  wf_window v = true -> Window_of v = Ok (window_record v).
Proof.
  destruct v as [| | | |l]; try (intro; discriminate).
  unfold wf_window. intro H. apply Nat.leb_le in H.
  do 8 (destruct l as [|? l]; [simpl in H; lia|]).
  unfold Window_of, window_record. simpl.
  match goal with |- context [py_eq ?s PNone] => destruct s; reflexivity end.
Qed.

Lemma field_app (l l' : list pyval) (k : nat) :
  (k < length l)%nat -> field (l ++ l') k = field l k.
Proof.
  intro H. unfold field. now apply app_nth1.
Qed.

Lemma belongs_to_app (spaceParam l windowParam : list pyval) :
  (2 <= length spaceParam)%nat ->
  belongs_to (spaceParam ++ l) windowParam = belongs_to spaceParam windowParam.
Proof.
  intro H. unfold belongs_to. rewrite field_app by lia. reflexivity.
Qed.

Lemma windows_of_app (spaceParam l : list pyval) (windowOut : list (list pyval)) :
  (2 <= length spaceParam)%nat ->
  windows_of (spaceParam ++ l) windowOut = windows_of spaceParam windowOut.
Proof.
  intro H. unfold windows_of.
  induction windowOut as [|wp windowOut IH]; cbn [flat_map]; [reflexivity|].
  now rewrite IH, belongs_to_app.
Qed.

Lemma appended_to_app (spaceParam l : list pyval) (windowOut : list (list pyval)) :
  (2 <= length spaceParam)%nat ->
  appended_to (spaceParam ++ l) windowOut = appended_to spaceParam windowOut.
Proof.
  intro H. unfold appended_to.
  induction windowOut as [|wp windowOut IH]; cbn [flat_map]; [reflexivity|].
  now rewrite IH, belongs_to_app.
Qed.

(** The loop over [windowOut], run from any state. *)
Lemma for_each_append_windows (windowOut : list (list pyval)) :
  forallb wf_windowParam windowOut = true ->
  forall (spaceParam : list pyval) (windows : list Window.t),
    (2 <= length spaceParam)%nat ->
    for_each append_windows windowOut (spaceParam, windows)
    = Ok (spaceParam ++ appended_to spaceParam windowOut,
          windows ++ windows_of spaceParam windowOut).
Proof.
  induction windowOut as [|wp windowOut IH]; intros Hwf spaceParam windows Hlen.
  - simpl. now rewrite !app_nil_r.
  - simpl in Hwf. apply andb_true_iff in Hwf as [Hwp Hwf].
    unfold wf_windowParam in Hwp. apply andb_true_iff in Hwp as [Hlen' Hwins].
    apply Nat.leb_le in Hlen'.
    simpl for_each. unfold append_windows at 1.
    rewrite (subscript_field wp 1) by lia.
    rewrite (subscript_field spaceParam 1) by lia.
    cbn [bind].
    change (py_eq (field wp 1) (field spaceParam 1)) with (belongs_to spaceParam wp).
    unfold windows_of, appended_to. simpl flat_map.
    fold (windows_of spaceParam windowOut). fold (appended_to spaceParam windowOut).
    destruct (belongs_to spaceParam wp) eqn:E.
    + rewrite (mapM_total Window_of window_record).
      2:{ intros v Hv. apply Window_of_wf.
          rewrite forallb_forall in Hwins. now apply Hwins. }
      cbn [bind].
      rewrite IH by (try assumption; rewrite length_app; lia).
      rewrite windows_of_app, appended_to_app by assumption.
      now rewrite <- !app_assoc.
    + cbn [bind]. rewrite IH by assumption. reflexivity.
Qed.

Lemma assemble_space_wf (windowOut : list (list pyval)) (spaceParam : list pyval) :
  forallb wf_windowParam windowOut = true ->
  wf_spaceParam spaceParam = true ->
  assemble_space windowOut spaceParam
  = Ok (space_record windowOut spaceParam,
        spaceParam ++ appended_to spaceParam windowOut).
Proof.
  intros Hw Hs. unfold wf_spaceParam in Hs. apply Nat.leb_le in Hs.
  unfold assemble_space.
  rewrite !subscript_field by lia. cbn [bind].
  rewrite for_each_append_windows by (try assumption; lia).
  reflexivity.
Qed.

(** On well-formed lists [Spaces.__init__] raises nothing, and this is
    what it builds and what it leaves behind. *)
Lemma Spaces_init_wf (st : store) :
  wf_store st = true ->
  Spaces_init st
  = Ok (map (space_record (windowOut st)) (spaceOut st),
        {| spaceOut := map (fun spaceParam =>
                              spaceParam ++ appended_to spaceParam (windowOut st))
                           (spaceOut st);
           windowOut := windowOut st |}).
Proof.
  intro H. unfold wf_store in H. apply andb_true_iff in H as [Hs Hw].
  unfold Spaces_init.
  rewrite (mapM_total _ (fun spaceParam =>
             (space_record (windowOut st) spaceParam,
              spaceParam ++ appended_to spaceParam (windowOut st)))).
  2:{ intros sp Hsp. apply assemble_space_wf; [assumption|].
      rewrite forallb_forall in Hs. now apply Hs. }
  cbn [bind]. rewrite !map_map. reflexivity.
Qed.

Lemma Forall2_map_right {A B : Type} (P : A -> B -> Prop) (f : A -> B) (l : list A) :
  (forall a, In a l -> P a (f a)) -> Forall2 P l (map f l).
Proof.
  induction l as [|a l IH]; intro H; simpl; constructor.
  - apply H. now left.
  - apply IH. intros b Hb. apply H. now right.
Qed.

(** C6. On well-formed lists the assembler builds one room per room
    record, and the windows of a room are those of the entries of
    [windowOut] whose code equals the room's code, in the order of
    [windowOut], and no other: an entry whose code is no room's code
    contributes to no room. In the scenario the room "A203" holds the
    window "W1" alone. *)
Theorem Spaces_init_matches_by_code :
  (forall st : store,
     wf_store st = true ->
     exists (spaces : list Space.t) (st' : store),
       Spaces_init st = Ok (spaces, st')
       /\ Forall2
            (fun spaceParam space =>
               Space.name space = field spaceParam 1
               /\ Space.windows space
                  = flat_map
                      (fun windowParam =>
                         if py_eq (field windowParam 1) (field spaceParam 1)
                         then map window_record (skipn 2 windowParam)
                         else [])
                      (windowOut st)
               /\ forall w : Window.t,
                    In w (Space.windows space) <->
                    exists windowParam v,
                      In windowParam (windowOut st)
                      /\ py_eq (field windowParam 1) (field spaceParam 1) = true
                      /\ In v (skipn 2 windowParam)
                      /\ w = window_record v)
            (spaceOut st) spaces)
  /\ exists (space : Space.t) (st' : store),
       Spaces_init scenario = Ok ([space], st')
       /\ Space.name space = PStr "A203"
       /\ map Window.name (Space.windows space) = [PStr "W1"].
Proof.
  split.
  - intros st Hwf. do 2 eexists. split; [exact (Spaces_init_wf st Hwf)|].
    apply Forall2_map_right. intros spaceParam _.
    split; [reflexivity|]. split; [reflexivity|].
    intro w. simpl. unfold windows_of, belongs_to. rewrite in_flat_map. split.
    + intros (wp & Hwp & Hw).
      destruct (py_eq (field wp 1) (field spaceParam 1)) eqn:E; [|contradiction].
      apply in_map_iff in Hw as (v & <- & Hv).
      exists wp, v. repeat split; assumption.
    + intros (wp & v & Hwp & E & Hv & ->).
      exists wp. split; [assumption|]. rewrite E. now apply in_map.
  - do 2 eexists. split; [reflexivity|]. split; reflexivity.
Qed.

Lemma Spaces_init_matches_by_code_witness :
  exists (spaces : list Space.t) (st' : store),
    Spaces_init scenario = Ok (spaces, st')
    /\ Forall2
         (fun spaceParam space =>
            Space.name space = field spaceParam 1
            /\ Space.windows space
               = flat_map
                   (fun windowParam =>
                      if py_eq (field windowParam 1) (field spaceParam 1)
                      then map window_record (skipn 2 windowParam)
                      else [])
                   (windowOut scenario)
            /\ forall w : Window.t,
                 In w (Space.windows space) <->
                 exists windowParam v,
                   In windowParam (windowOut scenario)
                   /\ py_eq (field windowParam 1) (field spaceParam 1) = true
                   /\ In v (skipn 2 windowParam)
                   /\ w = window_record v)
         (spaceOut scenario) spaces.
Proof.
  apply (proj1 Spaces_init_matches_by_code scenario). reflexivity.
Defined.

(** C7. A well-formed window entry always yields a window (the
    substitution raises nothing); its sill height is 0.1 when the
    entry's sill height is [None] and the entry's own value otherwise,
    so it is never [None]; and no window of an assembled room has a sill
    height of [None]. *)
Theorem sillHeight_never_None :
  (forall v : pyval,
     wf_window v = true ->
     exists w : Window.t,
       Window_of v = Ok w
       /\ (field (fields v) 3 = PNone -> Window.sillHeight w = PNum 0.1)
       /\ (field (fields v) 3 <> PNone ->
           Window.sillHeight w = field (fields v) 3)
       /\ Window.sillHeight w <> PNone)
  /\ (forall st : store,
        wf_store st = true ->
        exists (spaces : list Space.t) (st' : store),
          Spaces_init st = Ok (spaces, st')
          /\ forall space window,
               In space spaces -> In window (Space.windows space) ->
               Window.sillHeight window <> PNone).
Proof.
  assert (Hrec : forall v, Window.sillHeight (window_record v) <> PNone).
  { intro v. unfold window_record. simpl.
    destruct (field (fields v) 3); discriminate. }
  split.
  - intros v Hwf. exists (window_record v).
    split; [now apply Window_of_wf|].
    split; [|split].
    + intro E. unfold window_record. simpl. now rewrite E.
    + intro NE. unfold window_record. simpl.
      destruct (field (fields v) 3); congruence.
    + apply Hrec.
  - intros st Hwf. do 2 eexists. split; [exact (Spaces_init_wf st Hwf)|].
    intros space window Hs Hw.
    apply in_map_iff in Hs as (spaceParam & <- & _).
    simpl in Hw. unfold windows_of in Hw.
    apply in_flat_map in Hw as (wp & _ & Hw).
    destruct (belongs_to spaceParam wp); [|contradiction].
    apply in_map_iff in Hw as (v & <- & _). apply Hrec.
Qed.

Lemma sillHeight_never_None_witness :
  exists w : Window.t,
    Window_of window_W1 = Ok w
    /\ (field (fields window_W1) 3 = PNone -> Window.sillHeight w = PNum 0.1)
    /\ (field (fields window_W1) 3 <> PNone ->
        Window.sillHeight w = field (fields window_W1) 3)
    /\ Window.sillHeight w <> PNone.
Proof.
  apply (proj1 sillHeight_never_None window_W1). reflexivity.
Defined.

(** C9, as the code has it. Assembly leaves [windowOut] as it was and
    changes no value a room record already holds, but it extends the
    room record: for every entry of [windowOut] whose code is the
    room's, the list of that entry's windows is appended to it. *)
Theorem Spaces_init_extends_room_records (st : store) :
  wf_store st = true ->
  exists (spaces : list Space.t) (st' : store),
    Spaces_init st = Ok (spaces, st')
    /\ windowOut st' = windowOut st
    /\ Forall2
         (fun before after =>
            after
            = before
              ++ flat_map
                   (fun windowParam =>
                      if py_eq (field windowParam 1) (field before 1)
                      then [PList (skipn 2 windowParam)]
                      else [])
                   (windowOut st))
         (spaceOut st) (spaceOut st').
Proof.
  intro Hwf. do 2 eexists. split; [exact (Spaces_init_wf st Hwf)|].
  split; [reflexivity|]. simpl.
  apply Forall2_map_right. intros before _. reflexivity.
Qed.

Lemma Spaces_init_extends_room_records_witness :
  exists (spaces : list Space.t) (st' : store),
    Spaces_init scenario = Ok (spaces, st')
    /\ windowOut st' = windowOut scenario
    /\ Forall2
         (fun before after =>
            after
            = before
              ++ flat_map
                   (fun windowParam =>
                      if py_eq (field windowParam 1) (field before 1)
                      then [PList (skipn 2 windowParam)]
                      else [])
                   (windowOut scenario))
         (spaceOut scenario) (spaceOut st').
Proof.
  apply (Spaces_init_extends_room_records scenario). reflexivity.
Defined.

(** C9 as stated fails in the scenario: after assembly the record of
    room "A203" holds a sixth value, the list of its windows. *)
Lemma Spaces_init_mutates_spaceOut :
  exists (spaces : list Space.t) (st' : store),
    Spaces_init scenario = Ok (spaces, st')
    /\ spaceOut scenario
       = [[PStr "Bedroom"; PStr "A203"; PNum 3; PNum 4; PNum 2.5]]
    /\ spaceOut st'
       = [[PStr "Bedroom"; PStr "A203"; PNum 3; PNum 4; PNum 2.5;
           PList [window_W1]]].
Proof.
  do 2 eexists. split; [reflexivity|]. split; reflexivity.
Qed.

(** ** Rectangular profiles *)

(** The rows [spaceDims] returns for a rectangular profile: the row of
    column 3 (YDim) stands before the row of column 2 (XDim). *)
Lemma spaceDims_rectangle (space : IfcSpace.t) (XDim YDim : Q) :
  IfcSpace.LongName space <> "Hallway"%string ->
  IfcSpace.LongName space <> "Roof"%string ->
  IfcSpace.prop space = IfcRectangleProfileDef XDim YDim ->
  spaceDims space
  = Ok (Some [PList [PNum 0; PStr (IfcSpace.LongName space)];
              PList [PNum 1; PStr (IfcSpace.Name space)];
              PList [PNum 3; PNum (round3 YDim)];
              PList [PNum 2; PNum (round3 XDim)];
              PList [PNum 4; PNum (round3 (IfcSpace.Unbounded_Height space))]]).
Proof.
  intros H1 H2 Hp. unfold spaceDims.
  apply String.eqb_neq in H1, H2. rewrite H1, H2, Hp. reflexivity.
Qed.

(** C1, as the code has it. For a room with a rectangular profile the
    resolver emits both dimensions rounded to 3 decimals, YDim before
    XDim; the room record built from them, and the room the assembler
    and [__createRoom] build from the record, have YDim as their width
    ([sx]) and XDim as their depth ([sy]). *)
Theorem rectangle_width_is_YDim (Room_surfaces : list HBSurface.t)
  (space : IfcSpace.t) (XDim YDim : Q) (windows : list (list pyval)) :
  IfcSpace.LongName space <> "Hallway"%string ->
  IfcSpace.LongName space <> "Roof"%string ->
  IfcSpace.prop space = IfcRectangleProfileDef XDim YDim ->
  forallb wf_windowParam windows = true ->
  exists (spaceParam : list pyval) (room : Space.t) (st' : store),
    spaceOut_of [space] = Ok [spaceParam]
    /\ spaceParam
       = [PStr (IfcSpace.LongName space);
          PStr (IfcSpace.Name space);
          PNum (round3 YDim);
          PNum (round3 XDim);
          PNum (round3 (IfcSpace.Unbounded_Height space))]
    /\ Spaces_init {| spaceOut := [spaceParam]; windowOut := windows |}
       = Ok ([room], st')
    /\ Space.sx room = PNum (round3 YDim)
    /\ Space.sy room = PNum (round3 XDim)
    /\ Room.width (createRoom Room_surfaces room) = PNum (round3 YDim)
    /\ Room.depth (createRoom Room_surfaces room) = PNum (round3 XDim).
Proof.
  intros H1 H2 Hp Hw.
  do 3 eexists. split.
  - unfold spaceOut_of. cbn [mapM bind].
    rewrite (spaceDims_rectangle space XDim YDim H1 H2 Hp). reflexivity.
  - split; [reflexivity|]. split.
    + rewrite Spaces_init_wf; [reflexivity|].
      unfold wf_store. simpl. exact Hw.
    + repeat split.
Qed.

Lemma rectangle_width_is_YDim_witness :
  exists (spaceParam : list pyval) (room : Space.t) (st' : store),
    spaceOut_of [bedroom_3_by_4] = Ok [spaceParam]
    /\ spaceParam
       = [PStr "Bedroom"; PStr "A203"; PNum (round3 4); PNum (round3 3);
          PNum (round3 2.5)]
    /\ Spaces_init {| spaceOut := [spaceParam]; windowOut := [] |}
       = Ok ([room], st')
    /\ Space.sx room = PNum (round3 4)
    /\ Space.sy room = PNum (round3 3)
    /\ Room.width (createRoom [] room) = PNum (round3 4)
    /\ Room.depth (createRoom [] room) = PNum (round3 3).
Proof.
  apply (rectangle_width_is_YDim [] bedroom_3_by_4 3 4 []).
  - discriminate.
  - discriminate.
  - reflexivity.
  - reflexivity.
Defined.

(** C1 as stated fails for the rectangle with XDim 3 and YDim 4: the
    assembled room has width 4 and depth 3, and its width is not the
    profile's XDim. *)
Lemma rectangle_width_is_not_XDim :
  exists (spaceParam : list pyval) (room : Space.t) (st' : store),
    spaceOut_of [bedroom_3_by_4] = Ok [spaceParam]
    /\ Spaces_init {| spaceOut := [spaceParam]; windowOut := [] |}
       = Ok ([room], st')
    /\ Space.sx room = PNum 4
    /\ Space.sy room = PNum 3
    /\ py_eq (Space.sx room) (PNum (round3 3)) = false
    /\ py_eq (Space.sy room) (PNum (round3 4)) = false.
Proof.
  do 3 eexists. split; [reflexivity|]. split; [reflexivity|].
  repeat split.
Qed.

(** ** Correction of a window's position *)

(** C2. When [loc_x] exceeds both the room's [sx] and the room's [sy],
    the corrected [loc_x] is [wall_length - loc_x - wx] and nothing else
    of the window changes ([loc_y] included); otherwise the window is
    left as it is. In the scenario the corrected [loc_x] is -2. *)
Theorem correct_loc_x_rule :
  (forall (space : Space.t) (window : Window.t) (rawX width depth : Q),
     Window.loc_x window = PNum rawX ->
     Space.sx space = PNum width ->
     Space.sy space = PNum depth ->
     (width < rawX /\ depth < rawX ->
      forall wallLength wx : Q,
        Window.wall_length window = PNum wallLength ->
        Window.wx window = PNum wx ->
        correct_loc_x space window
        = Ok (Window.set_loc_x window (PNum (wallLength - rawX - wx)))
        /\ Window.loc_y (Window.set_loc_x window (PNum (wallLength - rawX - wx)))
           = Window.loc_y window)
     /\ (~ (width < rawX /\ depth < rawX) ->
         correct_loc_x space window = Ok window))
  /\ exists window' : Window.t,
       correct_loc_x scenario_space scenario_window = Ok window'
       /\ Window.loc_x window' = PNum (-2)
       /\ Window.loc_y window' = PNum 1.2.
Proof.
  split.
  - intros space window rawX width depth Hx Hsx Hsy. split.
    + intros [H1 H2] wallLength wx Hl Hwx.
      unfold correct_loc_x. rewrite Hx, Hsx, Hsy, Hl, Hwx. simpl.
      apply Qlt_bool_iff in H1, H2. rewrite H1. simpl. rewrite H2. simpl.
      split; reflexivity.
    + intro N. unfold correct_loc_x. rewrite Hx, Hsx, Hsy. simpl.
      destruct (Qlt_bool width rawX) eqn:E1; simpl; [|reflexivity].
      destruct (Qlt_bool depth rawX) eqn:E2; simpl; [|reflexivity].
      exfalso. apply N. split; now apply Qlt_bool_iff.
  - eexists. split; [reflexivity|]. split; reflexivity.
Qed.

Lemma correct_loc_x_rule_witness :
  correct_loc_x scenario_space scenario_window
  = Ok (Window.set_loc_x scenario_window (PNum (4 - 5 - 1)))
  /\ Window.loc_y (Window.set_loc_x scenario_window (PNum (4 - 5 - 1)))
     = Window.loc_y scenario_window.
Proof.
  apply (proj1 (proj1 correct_loc_x_rule scenario_space scenario_window 5 3 4
                  eq_refl eq_refl eq_refl)).
  - split; reflexivity.
  - reflexivity.
  - reflexivity.
Defined.

(** [__addWindows] hands back the window as [correct_loc_x] leaves it. *)
Lemma addWindows_window (space : Space.t) (room room' : Room.t)
  (window window' : Window.t) :
  addWindows space room window = Ok (room', window') ->
  correct_loc_x space window = Ok window'.
Proof.
  unfold addWindows. intro H.
  destruct (find_hbsurface _ _ _ _) as [h|e]; simpl in H; [|discriminate].
  destruct (correct_loc_x space window) as [w|e]; simpl in H; [|discriminate].
  destruct (glazing_points w) as [g|e]; simpl in H; [|discriminate].
  destruct h; [|discriminate]. now inversion H.
Qed.

(** ** The supporting wall and its orientation *)

Lemma tuple_eq_iff (a b : list Q) : tuple_eq a b = true <-> Forall2 Qeq a b.
Proof.
  revert b. induction a as [|x a IH]; intros [|y b]; simpl; split; intro H;
    try discriminate; try constructor; try (now inversion H).
  - apply andb_true_iff in H as [H _]. now apply Qeq_bool_iff.
  - apply andb_true_iff in H as [_ H]. now apply IH.
  - inversion H; subst. apply andb_true_iff. split.
    + now apply Qeq_bool_iff.
    + now apply IH.
Qed.

Lemma tuple_eq_comp (a b c : list Q) :
  Forall2 Qeq a b -> tuple_eq a c = tuple_eq b c.
Proof.
  intro H. revert c. induction H as [|x y a b Hxy _ IH]; intros [|z c]; simpl;
    try reflexivity.
  rewrite IH. f_equal. now apply Qeqb_comp.
Qed.

(** A direction that matches none of the four leaves [wall_name] as it
    was. *)
Lemma wall_orientation_no_match (wall_name : string) (ratios : list Q) :
  tuple_eq ratios [0; 0; 0] = false ->
  tuple_eq ratios [0; -1; 0] = false ->
  tuple_eq ratios [0; 1; 0] = false ->
  tuple_eq ratios [-1; 0; 0] = false ->
  wall_orientation wall_name (Some ratios) = wall_name.
Proof.
  intros H1 H2 H3 H4. unfold wall_orientation. now rewrite H1, H2, H3, H4.
Qed.

(** X20. From the empty [wall_name] the search starts with, the
    orientation given to a wall follows the table: no direction counts as (0,0,0);
    (0,0,0) gives front, (0,-1,0) right, (0,1,0) left, (-1,0,0) back, and
    every other vector leaves the name empty (unknown). *)
Lemma wall_orientation_table (RefDirection : option (list Q)) :
  let v := match RefDirection with
           | None => [0; 0; 0]
           | Some ratios => ratios
           end in
  wall_orientation EmptyString None = wall_name_of Front
  /\ (Forall2 Qeq v [0; 0; 0] ->
      wall_orientation EmptyString RefDirection = wall_name_of Front)
  /\ (Forall2 Qeq v [0; -1; 0] ->
      wall_orientation EmptyString RefDirection = wall_name_of Right)
  /\ (Forall2 Qeq v [0; 1; 0] ->
      wall_orientation EmptyString RefDirection = wall_name_of Left)
  /\ (Forall2 Qeq v [-1; 0; 0] ->
      wall_orientation EmptyString RefDirection = wall_name_of Back)
  /\ (~ Forall2 Qeq v [0; 0; 0] -> ~ Forall2 Qeq v [0; -1; 0] ->
      ~ Forall2 Qeq v [0; 1; 0] -> ~ Forall2 Qeq v [-1; 0; 0] ->
      wall_orientation EmptyString RefDirection = wall_name_of Unknown).
Proof.
  intro v.
  assert (E : wall_orientation EmptyString RefDirection
              = if tuple_eq v [0; 0; 0] then "front"%string
                else if tuple_eq v [0; -1; 0] then "right"%string
                else if tuple_eq v [0; 1; 0] then "left"%string
                else if tuple_eq v [-1; 0; 0] then "back"%string
                else EmptyString)
    by (destruct RefDirection; reflexivity).
  split; [reflexivity|]. rewrite E.
  repeat split.
  - intro H. now rewrite (tuple_eq_comp _ _ _ H).
  - intro H. now rewrite !(tuple_eq_comp _ _ _ H).
  - intro H. now rewrite !(tuple_eq_comp _ _ _ H).
  - intro H. now rewrite !(tuple_eq_comp _ _ _ H).
  - intros N1 N2 N3 N4.
    destruct (tuple_eq v [0; 0; 0]) eqn:E1;
      [exfalso; apply N1; now apply tuple_eq_iff|].
    destruct (tuple_eq v [0; -1; 0]) eqn:E2;
      [exfalso; apply N2; now apply tuple_eq_iff|].
    destruct (tuple_eq v [0; 1; 0]) eqn:E3;
      [exfalso; apply N3; now apply tuple_eq_iff|].
    destruct (tuple_eq v [-1; 0; 0]) eqn:E4;
      [exfalso; apply N4; now apply tuple_eq_iff|].
    reflexivity.
Qed.

Lemma locate_wall_from (box : list IfcElement.t) (st : string * pyval) :
  forallb (fun e => negb (is_wall e)) box = true ->
  fold_left select_wall box st = st.
Proof.
  revert st. induction box as [|e box IH]; intros st H; simpl; [reflexivity|].
  simpl in H. apply andb_true_iff in H as [He H].
  apply negb_true_iff in He. unfold is_wall in He.
  rewrite IH by assumption.
  unfold select_wall. destruct st. now rewrite He.
Qed.

(** No wall among the candidates: the empty name and the length 0. *)
Lemma locate_wall_no_wall (box : list IfcElement.t) :
  forallb (fun e => negb (is_wall e)) box = true ->
  locate_wall box = (EmptyString, PNum 0).
Proof.
  intro H. unfold locate_wall. now apply locate_wall_from.
Qed.

(** The length reported is the length of the last wall among the
    candidates. *)
Lemma locate_wall_length (before after : list IfcElement.t) (wall : IfcElement.t) :
  is_wall wall = true ->
  forallb (fun e => negb (is_wall e)) after = true ->
  snd (locate_wall (before ++ wall :: after)) = IfcElement.Length wall.
Proof.
  intros Hw Ha. unfold locate_wall. rewrite fold_left_app. simpl.
  rewrite locate_wall_from by assumption.
  unfold select_wall at 1.
  destruct (fold_left select_wall before _) as [n l].
  unfold is_wall in Hw. now rewrite Hw.
Qed.

(** The name reported is the orientation of the last wall, worked out
    from the name the walls before it left behind. *)
Lemma locate_wall_name (before after : list IfcElement.t) (wall : IfcElement.t) :
  is_wall wall = true ->
  forallb (fun e => negb (is_wall e)) after = true ->
  fst (locate_wall (before ++ wall :: after))
  = wall_orientation (fst (locate_wall before)) (IfcElement.RefDirection wall).
Proof.
  intros Hw Ha. unfold locate_wall. rewrite fold_left_app. simpl.
  rewrite locate_wall_from by assumption.
  unfold select_wall at 1.
  destruct (fold_left select_wall before _) as [n l].
  unfold is_wall in Hw. now rewrite Hw.
Qed.

(** With one wall among the candidates, name and length are that
    wall's. *)
Lemma locate_wall_single (before after : list IfcElement.t) (wall : IfcElement.t) :
  forallb (fun e => negb (is_wall e)) before = true ->
  is_wall wall = true ->
  forallb (fun e => negb (is_wall e)) after = true ->
  locate_wall (before ++ wall :: after)
  = (wall_orientation EmptyString (IfcElement.RefDirection wall),
     IfcElement.Length wall).
Proof.
  intros Hb Hw Ha.
  rewrite (surjective_pairing (locate_wall _)).
  rewrite locate_wall_name, locate_wall_length by assumption.
  now rewrite (locate_wall_no_wall before Hb).
Qed.

(** C3, on the code. With the walls [wall_left_5] and [wall_other_7]
    returned in this order,
    the length reported is the last wall's, 7, but the orientation
    reported is "left", the first wall's: the last wall's own direction
    matches no branch (alone it is reported with the empty name) and the
    name set for the first wall is kept. *)
Theorem locate_wall_keeps_earlier_name :
  locate_wall [wall_left_5; wall_other_7] = ("left"%string, PNum 7)
  /\ locate_wall [wall_other_7] = (EmptyString, PNum 7)
  /\ locate_wall [wall_left_5] = ("left"%string, PNum 5).
Proof.
  repeat split.
Qed.

(** C4, on the code. The orientation given to a wall is not a function
    of its reference direction alone: the direction (1,0,0), one of the
    "other" vectors, leaves the name empty when the wall is the first
    one examined, and leaves it "left" when a wall along (0,1,0) was
    examined before, which is what the search over [wall_left_5] and
    [wall_other_7] reports. *)
Theorem wall_orientation_keeps_earlier_name :
  wall_orientation EmptyString (Some [1; 0; 0]) = wall_name_of Unknown
  /\ wall_orientation (wall_name_of Left) (Some [1; 0; 0]) = wall_name_of Left
  /\ fst (locate_wall [wall_left_5; wall_other_7]) = wall_name_of Left.
Proof.
  repeat split.
Qed.

(** ** Placement on a surface of the room *)

Lemma index_empty (s : string) : String.index 0 EmptyString s = Some 0%nat.
Proof.
  destruct s; reflexivity.
Qed.

(** The empty name is part of every string: the search for the surface
    of a window with no orientation ends on the last surface. *)
Lemma find_hbsurface_empty_name (surfaces : list HBSurface.t) :
  forall (k : nat) (hbsurface : option nat),
    find_hbsurface (PStr EmptyString) surfaces k hbsurface
    = Ok (match surfaces with
          | [] => hbsurface
          | _ :: rest => Some (k + length rest)%nat
          end).
Proof.
  induction surfaces as [|s surfaces IH]; intros k h; simpl; [reflexivity|].
  rewrite index_empty. simpl. rewrite IH.
  destruct surfaces; simpl; f_equal; f_equal; lia.
Qed.

(** C5, on the code. A window with the empty wall name is not left out:
    [__addWindows] adds its glazing to the last surface of the room. *)
Theorem addWindows_places_unknown :
  exists (room' : Room.t) (window' : Window.t),
    addWindows scenario_space (createRoom six_surfaces scenario_space) window_W3
    = Ok (room', window')
    /\ map (fun s => (HBSurface.str s,
                      map HBFenSurface.name (HBSurface.fenestration s)))
         (Room.surfaces room')
       = [("floor", []); ("ceiling", []); ("back", []); ("right", []);
          ("front", []); ("left", [PStr "W3"])]%string.
Proof.
  do 2 eexists. split; reflexivity.
Qed.

(** ** The lists the program itself builds *)

Lemma windowParams_length (window : IfcWindow.t) (box : list IfcElement.t) :
  length (windowParams window box false) = 8%nat.
Proof.
  unfold windowParams.
  destruct (IfcWindow.Location window) as [[x y] z].
  destruct (locate_wall box) as [n l]. reflexivity.
Qed.

(** Every entry of [windowOut] that [intersectingObjects] builds is
    well formed. *)
Lemma intersectingObjects_wf (space : IfcSpace.t)
  (windows : list (IfcWindow.t * list IfcElement.t)) :
  wf_windowParam (intersectingObjects space windows) = true.
Proof.
  unfold wf_windowParam, intersectingObjects. simpl.
  apply forallb_forall. intros v Hv.
  apply in_map_iff in Hv as ([w box] & <- & _).
  unfold wf_window. now rewrite windowParams_length.
Qed.

(** The window entry lists the height before the width, and the
    assembler reads the second value as [wx] and the third as [wy]: in
    the assembled window [wx] is the opening's height and [wy] its
    width. *)
Lemma window_record_of_windowParams (window : IfcWindow.t)
  (box : list IfcElement.t) :
  let w := window_record (PList (windowParams window box false)) in
  Window.name w = PStr (IfcWindow.Tag window)
  /\ Window.wx w = PNum (round3 (IfcWindow.Height window))
  /\ Window.wy w = PNum (round3 (IfcWindow.Width window))
  /\ Window.wall_name w = PStr (fst (locate_wall box))
  /\ Window.wall_length w = snd (locate_wall box).
Proof.
  unfold windowParams.
  destruct (IfcWindow.Location window) as [[x y] z].
  destruct (locate_wall box) as [n l]. simpl. repeat split.
Qed.

(** The round-trip scenario from end to end: the window of room "A203"
    lies on the wall "left", and its glazing starts at x = -2. *)
Lemma Analysis_init_scenario :
  exists (space : Space.t) (room : Room.t) (st' : store),
    Analysis_init six_surfaces scenario = Ok ([(space, room)], st')
    /\ map Window.loc_x (Space.windows space) = [PNum (-2)]
    /\ map (fun s => (HBSurface.str s,
                      map HBFenSurface.name (HBSurface.fenestration s)))
         (Room.surfaces room)
       = [("floor", []); ("ceiling", []); ("back", []); ("right", []);
          ("front", []); ("left", [PStr "W1"])]%string.
Proof.
  do 3 eexists. split; [reflexivity|]. split; reflexivity.
Qed.

(** * Further properties of the code *)

(** ** Writing lines to a worksheet *)

Lemma write_line_wf (row : Z) (vals : list pyval) :
  forallb wf_cell vals = true ->
  forall sheet : list cell_write,
    write_line row vals sheet = (sheet ++ map (cell_write_at row) vals, None).
Proof.
  induction vals as [|val vals IH]; intros H sheet; simpl.
  - now rewrite app_nil_r.
  - simpl in H. apply andb_true_iff in H as [Hv H].
    destruct val as [| | | |l]; try discriminate.
    destruct l as [|c [|t [|f [|? ?]]]]; try discriminate; simpl;
      rewrite IH by assumption; now rewrite <- app_assoc.
Qed.

Lemma excelWrite_from_wf (lines : list pyval) :
  forallb wf_line lines = true ->
  forall (i i_adjust : Z) (sheet : list cell_write),
    excelWrite_from i i_adjust lines sheet
    = (sheet ++ writes_from (i + 1 + i_adjust) lines, None).
Proof.
  induction lines as [|line lines IH]; intros H i adj sheet; simpl.
  - now rewrite app_nil_r.
  - simpl in H. apply andb_true_iff in H as [Hl H].
    destruct line as [| | | |cells]; try discriminate; simpl.
    + rewrite IH by assumption.
      now replace (i + 1 + 1 + (adj - 1))%Z with (i + 1 + adj)%Z by lia.
    + simpl in Hl. rewrite write_line_wf by assumption.
      rewrite IH by assumption. rewrite <- app_assoc.
      now replace (i + 1 + 1 + adj)%Z with (i + 1 + adj + 1)%Z by lia.
Qed.

(** X1. On lines that are [None] or lists of cells of two or three
    values, [excelWrite] raises nothing and writes the lines that are
    not [None] on consecutive rows from row 1 on, in their order: a
    [None] line leaves no empty row. *)
Theorem excelWrite_consecutive_rows (sheet : list cell_write) (lines : list pyval) :
  forallb wf_line lines = true ->
  excelWrite sheet lines = (sheet ++ writes_from 1 lines, None).
Proof.
  intro H. unfold excelWrite. now rewrite excelWrite_from_wf.
Qed.

Lemma excelWrite_consecutive_rows_witness :
  excelWrite []
    [PList [PList [PNum 0; PStr "Bedroom"]]; PNone;
     PList [PList [PNum 0; PStr "Kitchen"; PFormat]]]
  = ([] ++ writes_from 1
             [PList [PList [PNum 0; PStr "Bedroom"]]; PNone;
              PList [PList [PNum 0; PStr "Kitchen"; PFormat]]],
     None).
Proof.
  apply (excelWrite_consecutive_rows []
           [PList [PList [PNum 0; PStr "Bedroom"]]; PNone;
            PList [PList [PNum 0; PStr "Kitchen"; PFormat]]]).
  reflexivity.
Defined.

Lemma write_line_bad_cell (row : Z) (cells rest : list pyval) (bad : pyval)
  (n : nat) :
  forallb wf_cell cells = true ->
  py_len bad = Ok n -> n <> 2%nat -> n <> 3%nat ->
  forall sheet : list cell_write,
    write_line row (cells ++ bad :: rest) sheet
    = (sheet ++ map (cell_write_at row) cells, Some DataError).
Proof.
  intros Hc Hn N2 N3.
  induction cells as [|val cells IH]; intro sheet; simpl.
  - rewrite Hn, app_nil_r.
    destruct n as [|[|[|[|n]]]]; try reflexivity; try congruence;
      destruct (py_iter bad) as [[|? [|? [|? [|? ?]]]]|]; reflexivity.
  - simpl in Hc. apply andb_true_iff in Hc as [Hv Hc].
    destruct val as [| | | |l]; try discriminate.
    destruct l as [|c [|t [|f [|? ?]]]]; try discriminate; simpl;
      rewrite IH by assumption; now rewrite <- app_assoc.
Qed.

Lemma excelWrite_from_bad_cell (good cells rest_cells rest : list pyval)
  (bad : pyval) (n : nat) :
  forallb wf_line good = true ->
  forallb wf_cell cells = true ->
  py_len bad = Ok n -> n <> 2%nat -> n <> 3%nat ->
  forall (i i_adjust : Z) (sheet : list cell_write),
    excelWrite_from i i_adjust
      (good ++ PList (cells ++ bad :: rest_cells) :: rest) sheet
    = (sheet ++ writes_from (i + 1 + i_adjust) (good ++ [PList cells]),
       Some DataError).
Proof.
  intros Hg Hc Hn N2 N3.
  induction good as [|line good IH]; intros i adj sheet; simpl.
  - rewrite (write_line_bad_cell _ _ _ _ n) by assumption.
    now rewrite app_nil_r.
  - simpl in Hg. apply andb_true_iff in Hg as [Hl Hg].
    destruct line as [| | | |l]; try discriminate; simpl.
    + rewrite IH by assumption.
      now replace (i + 1 + 1 + (adj - 1))%Z with (i + 1 + adj)%Z by lia.
    + simpl in Hl. rewrite write_line_wf by assumption.
      rewrite IH by assumption. rewrite <- app_assoc.
      now replace (i + 1 + 1 + adj)%Z with (i + 1 + adj + 1)%Z by lia.
Qed.

(** X2. At the first cell whose length is neither 2 nor 3 [excelWrite]
    raises its "DataError" exception; the lines before it and the cells
    before it on its line have been written by then, and nothing after
    it is. *)
Theorem excelWrite_DataError (sheet : list cell_write)
  (good cells rest_cells rest : list pyval) (bad : pyval) (n : nat) :
  forallb wf_line good = true ->
  forallb wf_cell cells = true ->
  py_len bad = Ok n -> n <> 2%nat -> n <> 3%nat ->
  excelWrite sheet (good ++ PList (cells ++ bad :: rest_cells) :: rest)
  = (sheet ++ writes_from 1 (good ++ [PList cells]), Some DataError).
Proof.
  intros. unfold excelWrite.
  now rewrite (excelWrite_from_bad_cell _ _ _ _ _ n).
Qed.

Lemma excelWrite_DataError_witness :
  excelWrite []
    ([PList [PList [PNum 0; PStr "Bedroom"]]]
     ++ PList ([PList [PNum 0; PStr "Kitchen"]]
               ++ PList [PNum 1] :: [PList [PNum 2; PStr "A102"]])
        :: [PList [PList [PNum 0; PStr "Foyer"]]])
  = ([] ++ writes_from 1
             ([PList [PList [PNum 0; PStr "Bedroom"]]]
              ++ [PList [PList [PNum 0; PStr "Kitchen"]]]),
     Some DataError).
Proof.
  apply (excelWrite_DataError [] _ _ _ _ (PList [PNum 1]) 1);
    (reflexivity || discriminate).
Defined.

(** ** Material rows of a wall *)

Lemma layer_rows_fold (layers : list IfcMaterialLayer.t) :
  forall (out : list pyval) (col : nat),
  exists rows : list pyval,
    fold_left layer_rows layers (out, col) = (out ++ rows, (col + length rows)%nat)
    /\ map column_of rows = map PInt (seq col (length rows))
    /\ forallb wf_cell rows = true
    /\ length rows = (2 * length layers)%nat.
Proof.
  induction layers as [|layer layers IH]; intros out col.
  - exists []. simpl. rewrite app_nil_r, Nat.add_0_r. repeat split.
  - cbn [fold_left].
    assert (E0 : layer_rows (out, col) layer
                 = (out ++ [PList [PInt col; PStr (IfcMaterialLayer.Material_Name layer)];
                            PList [PInt (col + 1); PStr (IfcMaterialLayer.LayerThickness layer)]],
                    (col + 2)%nat)) by reflexivity.
    rewrite E0. clear E0.
    destruct (IH (out ++ [PList [PInt col; PStr (IfcMaterialLayer.Material_Name layer)];
                          PList [PInt (col + 1); PStr (IfcMaterialLayer.LayerThickness layer)]])
                 (col + 2)%nat) as (rows & E & Hc & Hw & Hl).
    eexists (_ :: _ :: rows). rewrite E. repeat split.
    + rewrite <- app_assoc. simpl. f_equal. lia.
    + simpl. unfold column_of at 1 2. simpl.
      rewrite Hc. replace (col + 1)%nat with (S col) by lia.
      now replace (col + 2)%nat with (S (S col)) by lia.
    + simpl. exact Hw.
    + simpl. lia.
Qed.

Lemma association_rows_fold (associations : list (list IfcMaterialLayer.t)) :
  forall (out : list pyval) (col : nat),
  exists rows : list pyval,
    fold_left association_rows associations (out, col)
    = (out ++ rows, (col + length rows)%nat)
    /\ map column_of rows = map PInt (seq col (length rows))
    /\ forallb wf_cell rows = true
    /\ length rows
       = list_sum (map (fun layers => (1 + 2 * length layers)%nat) associations).
Proof.
  induction associations as [|layers associations IH]; intros out col.
  - exists []. simpl. rewrite app_nil_r, Nat.add_0_r. repeat split.
  - cbn [fold_left].
    assert (E0 : association_rows (out, col) layers
                 = fold_left layer_rows layers
                     (out ++ [PList [PInt col; PInt (length layers)]],
                      (col + 1)%nat)) by reflexivity.
    rewrite E0. clear E0.
    destruct (layer_rows_fold layers
                (out ++ [PList [PInt col; PInt (length layers)]]) (col + 1)%nat)
      as (rows1 & E1 & Hc1 & Hw1 & Hl1).
    rewrite E1.
    destruct (IH ((out ++ [PList [PInt col; PInt (length layers)]]) ++ rows1)
                 (col + 1 + length rows1)%nat) as (rows2 & E2 & Hc2 & Hw2 & Hl2).
    exists (PList [PInt col; PInt (length layers)] :: rows1 ++ rows2).
    rewrite E2. repeat split.
    + rewrite <- !app_assoc. simpl. f_equal. rewrite length_app. lia.
    + simpl. unfold column_of at 1. simpl. f_equal.
      rewrite map_app, length_app, seq_app, map_app, Hc1, Hc2.
      replace (col + 1)%nat with (S col) by lia.
      now replace (S col + length rows1)%nat with (S (col + length rows1)) by lia.
    + simpl. rewrite forallb_app, Hw1, Hw2. reflexivity.
    + cbn [length map]. rewrite length_app, Hl1, Hl2.
      unfold list_sum. cbn [fold_right]. lia.
Qed.

(** X3. The rows [getMaterialAndQuantities] returns stand in
    consecutive columns from column 5 on, whatever the number of
    associations and layers, so no two of them share a cell; their
    number is one per association and two per layer, and none for a
    wall whose name contains "Roof". *)
Theorem getMaterialAndQuantities_columns (ifcElement : IfcWall.t) :
  map column_of (getMaterialAndQuantities ifcElement)
  = map PInt (seq 5 (length (getMaterialAndQuantities ifcElement)))
  /\ length (getMaterialAndQuantities ifcElement)
     = (if contains "Roof" (str_of (IfcWall.Name ifcElement))
        then 0%nat
        else list_sum (map (fun layers => (1 + 2 * length layers)%nat)
                         (IfcWall.HasAssociations ifcElement))).
Proof.
  unfold getMaterialAndQuantities.
  destruct (contains "Roof" (str_of (IfcWall.Name ifcElement))); simpl.
  - split; reflexivity.
  - destruct (association_rows_fold (IfcWall.HasAssociations ifcElement) [] 5)
      as (rows & E & Hc & _ & Hl).
    rewrite E. simpl. split; assumption.
Qed.

Lemma getMaterialAndQuantities_wf (ifcElement : IfcWall.t) :
  forallb wf_cell (getMaterialAndQuantities ifcElement) = true.
Proof.
  unfold getMaterialAndQuantities.
  destruct (contains "Roof" (str_of (IfcWall.Name ifcElement))); simpl.
  - reflexivity.
  - destruct (association_rows_fold (IfcWall.HasAssociations ifcElement) [] 5)
      as (rows & E & _ & Hw & _).
    rewrite E. exact Hw.
Qed.

(** ** The number of material columns *)

Lemma fold_left_bound {A : Type} (f : nat -> A -> nat) (l : list A) :
  (forall a x, (a <= f a x)%nat) ->
  forall a : nat, (a <= fold_left f l a)%nat.
Proof.
  intro Hf. induction l as [|x l IH]; intro a; simpl; [lia|].
  specialize (IH (f a x)). specialize (Hf a x). lia.
Qed.

Lemma fold_left_bound_In {A : Type} (f : nat -> A -> nat) (l : list A)
  (x : A) (b : nat) :
  (forall a y, (a <= f a y)%nat) ->
  (forall a, (b <= f a x)%nat) ->
  In x l ->
  forall a : nat, (b <= fold_left f l a)%nat.
Proof.
  intros Hf Hx. induction l as [|y l IH]; intros Hin a; [contradiction|].
  simpl. destruct Hin as [->|Hin].
  - pose proof (fold_left_bound f l Hf (f a x)). specialize (Hx a). lia.
  - now apply IH.
Qed.

(** X4. [getMaterialAndQuantitiesHeaders] is at least the number of
    layers of every association of every wall that bounds one of the
    spaces and whose name does not contain "Roof": it is the largest
    such number, from which [main] sizes the header of the wall
    sheet. *)
Theorem getMaterialAndQuantitiesHeaders_bound (spaces : list Located.t)
  (s : Located.t) (wall : IfcWall.t) (MaterialLayers : list IfcMaterialLayer.t) :
  In s spaces ->
  In (BoundingWall wall) (Located.BoundedBy s) ->
  contains "Roof" (str_of (IfcWall.Name wall)) = false ->
  In MaterialLayers (IfcWall.HasAssociations wall) ->
  (length MaterialLayers <= getMaterialAndQuantitiesHeaders spaces)%nat.
Proof.
  intros Hs Hw Hr Hl. unfold getMaterialAndQuantitiesHeaders.
  set (f3 := fun (most_materials : nat) (layers : list IfcMaterialLayer.t) =>
               if (most_materials <? length layers)%nat
               then length layers else most_materials).
  assert (H3 : forall a y, (a <= f3 a y)%nat).
  { intros a y. unfold f3. destruct (a <? length y)%nat eqn:E; [|lia].
    apply Nat.ltb_lt in E. lia. }
  set (f2 := fun (most_materials : nat) (obj : bounding) =>
               match obj with
               | BoundingWall wall0 =>
                   if negb (contains "Roof" (str_of (IfcWall.Name wall0)))
                   then fold_left f3 (IfcWall.HasAssociations wall0) most_materials
                   else most_materials
               | _ => most_materials
               end).
  assert (H2 : forall a y, (a <= f2 a y)%nat).
  { intros a [| w |]; simpl; try lia.
    destruct (negb _); [apply fold_left_bound; exact H3|lia]. }
  apply (fold_left_bound_In _ spaces s).
  - intros a y. apply fold_left_bound. exact H2.
  - intro a. apply (fold_left_bound_In f2 _ (BoundingWall wall)); try assumption.
    intro a'. simpl. rewrite Hr. simpl.
    apply (fold_left_bound_In f3 _ MaterialLayers); try assumption.
    intro a''. unfold f3. destruct (a'' <? length MaterialLayers)%nat eqn:E; [lia|].
    apply Nat.ltb_ge in E. lia.
  - assumption.
Qed.

Lemma getMaterialAndQuantitiesHeaders_bound_witness :
  (2 <= getMaterialAndQuantitiesHeaders
          [{| Located.space := bedroom_3_by_4;
              Located.select_box := [];
              Located.BoundedBy :=
                [NoElement;
                 BoundingWall
                   {| IfcWall.Name := Some "Basic Wall"%string;
                      IfcWall.Tag := PStr "W-1";
                      IfcWall.IsDefinedBy := [];
                      IfcWall.HasAssociations :=
                        [[{| IfcMaterialLayer.Material_Name := "Brick";
                             IfcMaterialLayer.LayerThickness := "0.1" |};
                          {| IfcMaterialLayer.Material_Name := "Air";
                             IfcMaterialLayer.LayerThickness := "0.05" |}]] |}] |}])%nat.
Proof.
  eapply (getMaterialAndQuantitiesHeaders_bound _ _ _
            [{| IfcMaterialLayer.Material_Name := "Brick";
                IfcMaterialLayer.LayerThickness := "0.1" |};
             {| IfcMaterialLayer.Material_Name := "Air";
                IfcMaterialLayer.LayerThickness := "0.05" |}]).
  - left. reflexivity.
  - simpl. right. left. reflexivity.
  - reflexivity.
  - left. reflexivity.
Defined.

(** ** The lines the program hands to the writer *)

Lemma forallb_flat_map {A B : Type} (p : B -> bool) (f : A -> list B) (l : list A) :
  (forall a, In a l -> forallb p (f a) = true) ->
  forallb p (flat_map f l) = true.
Proof.
  induction l as [|a l IH]; intro H; simpl; [reflexivity|].
  rewrite forallb_app, (H a (or_introl eq_refl)). simpl.
  apply IH. intros b Hb. apply H. now right.
Qed.

Lemma windowParams_excel_wf (window : IfcWindow.t) (box : list IfcElement.t) :
  forallb wf_cell (windowParams window box true) = true.
Proof.
  unfold windowParams.
  destruct (IfcWindow.Location window) as [[x y] z].
  destruct (locate_wall box) as [n l]. reflexivity.
Qed.

Lemma wallParams_wf (wall : IfcWall.t) : forallb wf_cell (wallParams wall) = true.
Proof.
  unfold wallParams. rewrite !forallb_app, getMaterialAndQuantities_wf.
  simpl. rewrite andb_true_r.
  induction (IsExternal_values (IfcWall.IsDefinedBy wall)); simpl; auto.
Qed.

Lemma intersectingObjects_flags_wf (s : Located.t)
  (windowsOnly doorsOnly wallsOnly : bool) :
  forallb wf_line (intersectingObjects_flags s windowsOnly doorsOnly wallsOnly true)
  = true.
Proof.
  unfold intersectingObjects_flags. rewrite !forallb_app.
  apply andb_true_iff. split; [apply andb_true_iff; split|].
  - reflexivity.
  - apply forallb_flat_map. intros [w box|d|] _.
    + destruct windowsOnly; simpl; [|reflexivity].
      now rewrite windowParams_excel_wf.
    + destruct doorsOnly; [|reflexivity].
      apply forallb_flat_map. intros v _.
      destruct (py_eq v (PNum 1)); reflexivity.
    + reflexivity.
  - apply forallb_flat_map. intros [|wall|] _; try reflexivity.
    destruct wallsOnly; [|reflexivity].
    cbn [forallb wf_line]. now rewrite wallParams_wf.
Qed.

(** X5. The lines [spaceFunc] builds from [intersectingObjects] for the
    window, door and wall sheets always meet the writer's contract:
    whatever the spaces and the three flags, [excelWrite] raises
    nothing on them and writes every line on a row of its own, from
    row 1 on. *)
Theorem excelWrite_intersectingObjects (sheet : list cell_write)
  (spaces : list Located.t) (windowsOnly doorsOnly wallsOnly : bool) :
  let lines := spaceFunc_nested spaces [intersectingObjects_flags]
                 windowsOnly doorsOnly wallsOnly true in
  excelWrite sheet lines = (sheet ++ writes_from 1 lines, None)
  /\ Forall (fun line => line <> PNone) lines.
Proof.
  intro lines.
  assert (H : forallb wf_line lines = true /\ Forall (fun line => line <> PNone) lines).
  { unfold lines, spaceFunc_nested. split.
    - apply forallb_flat_map. intros s _. simpl. rewrite app_nil_r.
      apply intersectingObjects_flags_wf.
    - apply Forall_flat_map. apply Forall_forall. intros s _.
      cbn [flat_map]. rewrite app_nil_r.
      unfold intersectingObjects_flags. rewrite !Forall_app. repeat split.
      + constructor; [discriminate|constructor].
      + apply Forall_flat_map. apply Forall_forall. intros [w box|d|] _.
        * destruct windowsOnly; repeat constructor. discriminate.
        * destruct doorsOnly; [|constructor].
          apply Forall_flat_map. apply Forall_forall. intros v _.
          destruct (py_eq v (PNum 1)); repeat constructor. discriminate.
        * constructor.
      + apply Forall_flat_map. apply Forall_forall. intros [|wall|] _;
          try constructor.
        destruct wallsOnly; repeat constructor. discriminate. }
  destruct H as [Hwf Hn]. split; [|exact Hn].
  unfold excelWrite. now rewrite excelWrite_from_wf.
Qed.

Lemma arbiClosOut_shape (OuterCurve_Points points : list (list Q)) (rows : list pyval) :
  arbiClosOut OuterCurve_Points points = Ok rows ->
  exists w d : Q,
    rows = [PList [PNum 2; PNum w; PFormat]; PList [PNum 3; PNum d; PFormat]].
Proof.
  unfold arbiClosOut. intro H.
  destruct (coordinate 0 _) as [xs|]; simpl in H; [|discriminate].
  destruct (py_min xs) as [minx|]; simpl in H; [|discriminate].
  destruct (coordinate 1 _) as [ys|]; simpl in H; [|discriminate].
  destruct (py_min ys) as [miny|]; simpl in H; [|discriminate].
  destruct (py_max xs) as [maxx|]; simpl in H; [|discriminate].
  destruct (py_max ys) as [maxy|]; simpl in H; [|discriminate].
  inversion H. eauto.
Qed.

Lemma spaceDims_value_wf (space : IfcSpace.t) (line : pyval) :
  spaceDims_value space = Ok line -> wf_line line = true.
Proof.
  unfold spaceDims_value, spaceDims. intro H.
  destruct (negb _ && negb _); [|inversion H; reflexivity].
  destruct (IfcSpace.prop space) as [XDim YDim|pts|]; simpl in H.
  - inversion H. reflexivity.
  - destruct (arbiClosOut pts []) as [rows|] eqn:E; simpl in H; [|discriminate].
    apply arbiClosOut_shape in E as (w & d & ->). simpl in H.
    inversion H. reflexivity.
  - inversion H. reflexivity.
Qed.

Lemma mapM_Ok_forall {A B : Type} (f : A -> res B) (P : B -> Prop) (l : list A)
  (bs : list B) :
  (forall a b, f a = Ok b -> P b) -> mapM f l = Ok bs -> Forall P bs.
Proof.
  intro Hf. revert bs. induction l as [|a l IH]; intros bs H; simpl in H.
  - inversion H. constructor.
  - destruct (f a) as [b|] eqn:E; simpl in H; [|discriminate].
    destruct (mapM f l) as [bs'|]; simpl in H; [|discriminate].
    inversion H. constructor; [now apply Hf with a|now apply IH].
Qed.

(** X6. Whenever [spaceFunc] with [spaceDims] returns the lines of the
    space sheet, [excelWrite] raises nothing on them: a hallway or roof
    space gives a [None] line and takes no row, and the other spaces
    follow one another on rows 1, 2, ... *)
Theorem excelWrite_spaceDims (sheet : list cell_write)
  (spaces : list IfcSpace.t) (lines : list pyval) :
  spaceFunc spaces [spaceDims_value] = Ok lines ->
  excelWrite sheet lines = (sheet ++ writes_from 1 lines, None).
Proof.
  unfold spaceFunc. intro H.
  destruct (mapM _ spaces) as [rows|] eqn:E; simpl in H; [|discriminate].
  inversion H; subst. clear H.
  assert (Hwf : forallb wf_line (concat rows) = true).
  { apply (mapM_Ok_forall _ (fun r => forallb wf_line r = true)) in E.
    - clear -E. induction E as [|r rows Hr _ IH]; simpl; [reflexivity|].
      now rewrite forallb_app, Hr, IH.
    - intros space r Hr. simpl in Hr.
      destruct (spaceDims_value space) as [line|] eqn:El; simpl in Hr;
        [|discriminate].
      inversion Hr. simpl. now rewrite (spaceDims_value_wf space line El). }
  unfold excelWrite. now rewrite excelWrite_from_wf.
Qed.

Lemma excelWrite_spaceDims_witness :
  excelWrite []
    [PList [PList [PNum 0; PStr "Bedroom"]; PList [PNum 1; PStr "A203"];
            PList [PNum 3; PNum (round3 4)]; PList [PNum 2; PNum (round3 3)];
            PList [PNum 4; PNum (round3 2.5)]]]
  = ([] ++ writes_from 1
             [PList [PList [PNum 0; PStr "Bedroom"]; PList [PNum 1; PStr "A203"];
                     PList [PNum 3; PNum (round3 4)]; PList [PNum 2; PNum (round3 3)];
                     PList [PNum 4; PNum (round3 2.5)]]],
     None).
Proof.
  apply (excelWrite_spaceDims [] [bedroom_3_by_4]). reflexivity.
Defined.

(** ** Doors *)

Lemma flat_map_nil {A B : Type} (f : A -> list B) (l : list A) :
  (forall a, f a = []) -> flat_map f l = [].
Proof.
  intro H. induction l as [|a l IH]; simpl; [reflexivity|].
  now rewrite H, IH.
Qed.

Lemma flat_map_if_repeat {A B : Type} (p : A -> bool) (b : B) (l : list A) :
  flat_map (fun a => if p a then [b] else []) l = repeat b (length (filter p l)).
Proof.
  induction l as [|a l IH]; simpl; [reflexivity|].
  rewrite IH. destruct (p a); reflexivity.
Qed.

(** X7. With [doorsOnly] set, the rows after the header are door rows
    alone: a door is listed once for every "IsExternal" property of its
    property sets whose value is [True] (so not at all when it has
    none, and twice when two property sets say so); windows and walls
    give no row. *)
Theorem intersectingObjects_external_doors (s : Located.t) :
  skipn 1 (intersectingObjects_flags s false true false true)
  = flat_map (fun obj =>
                match obj with
                | BoxDoor door =>
                    repeat (PList (doorParams door)) (external_count door)
                | _ => []
                end) (Located.select_box s).
Proof.
  unfold intersectingObjects_flags. simpl.
  rewrite (flat_map_nil _ (Located.BoundedBy s)) by (intros [| |]; reflexivity).
  rewrite app_nil_r. apply flat_map_ext. intros [w box|d|]; try reflexivity.
  unfold external_count. apply flat_map_if_repeat.
Qed.

(** ** From the model to the room tree *)

Lemma intersectingObjects_flags_windows (s : Located.t) :
  intersectingObjects_flags s true false false false
  = intersectingObjects (Located.space s) (windows_in (Located.select_box s)).
Proof.
  unfold intersectingObjects_flags, intersectingObjects, windows_in.
  rewrite (flat_map_nil _ (Located.BoundedBy s)) by (intros [| |]; reflexivity).
  rewrite app_nil_r. f_equal.
  induction (Located.select_box s) as [|[w box|d|] l IH]; simpl;
    try assumption; [reflexivity|]. now rewrite IH.
Qed.

Lemma windowOut_of_spec (spaces : list Located.t) :
  windowOut_of spaces
  = Ok (map (fun s => PList (intersectingObjects_flags s true false false false))
          spaces).
Proof.
  unfold windowOut_of, SpaceParams, spaceFunc_nested. simpl. f_equal.
  induction spaces as [|s spaces IH]; simpl; [reflexivity|].
  now rewrite IH.
Qed.

Lemma space_record_of_analysable (space : IfcSpace.t) :
  analysable space = true ->
  exists spaceParam : list pyval,
    (d <- spaceDims space ;;
     o <- SpaceParams d (Some false) ;;
     Ok (match o with Some l => l | None => [] end)) = Ok spaceParam
    /\ (if excluded space
        then spaceParam = []
        else wf_spaceParam spaceParam = true
             /\ field spaceParam 1 = PStr (IfcSpace.Name space)).
Proof.
  unfold analysable, excluded, has_bounds, spaceDims. intro H.
  destruct (String.eqb (IfcSpace.LongName space) "Hallway"); simpl in *;
    [eexists; split; reflexivity|].
  destruct (String.eqb (IfcSpace.LongName space) "Roof"); simpl in *;
    [eexists; split; reflexivity|].
  destruct (IfcSpace.prop space) as [XDim YDim|[|p ps]|]; try discriminate.
  - eexists. split; [reflexivity|]. split; reflexivity.
  - destruct (arbiClosOut_nonempty p ps H) as (XDim & YDim & E).
    rewrite E. eexists. split; [reflexivity|]. split; reflexivity.
Qed.

Lemma spaceOut_of_analysable (spaces : list IfcSpace.t) :
  forallb analysable spaces = true ->
  exists so : list (list pyval),
    spaceOut_of spaces = Ok so
    /\ forallb wf_spaceParam so = true
    /\ map (fun spaceParam => field spaceParam 1) so
       = map (fun space => PStr (IfcSpace.Name space))
           (filter (fun space => negb (excluded space)) spaces).
Proof.
  unfold spaceOut_of.
  induction spaces as [|space spaces IH]; intro H.
  - exists []. repeat split.
  - simpl in H. apply andb_true_iff in H as [Ha H].
    destruct (IH H) as (so & E & Hwf & Hn). clear IH.
    destruct (space_record_of_analysable space Ha) as (rec & Er & Hr).
    cbn [mapM]. rewrite Er. cbn [bind].
    destruct (mapM _ spaces) as [out|]; simpl in E; [|discriminate].
    inversion E; subst. clear E. cbn [bind filter].
    destruct (excluded space).
    + subst rec. simpl. exists (filter (fun x => negb (py_eq (PList x) (PList []))) out).
      repeat split; assumption.
    + destruct Hr as [Hw Hf].
      assert (Hne : negb (py_eq (PList rec) (PList [])) = true).
      { unfold wf_spaceParam in Hw. apply Nat.leb_le in Hw.
        destruct rec; [simpl in Hw; lia|reflexivity]. }
      rewrite Hne. eexists. split; [reflexivity|]. simpl.
      rewrite Hw, Hwf, Hf, Hn. repeat split.
Qed.

(** X8. From the model to the room tree without an exception: when
    every space is a hallway or roof space, or has a rectangular
    profile, or a polygon profile of at least one point whose points
    have an x and a y, the two lists of [main.py] are built, the
    assembler accepts them, and it returns one room for every space
    that is no hallway and no roof space, in the order of the spaces,
    named by the space's code. *)
Theorem Spaces_init_from_model (spaces : list Located.t) :
  forallb analysable (map Located.space spaces) = true ->
  exists (so : list (list pyval)) (wo : list pyval)
         (rooms : list Space.t) (st' : store),
    spaceOut_of (map Located.space spaces) = Ok so
    /\ windowOut_of spaces = Ok wo
    /\ Spaces_init {| spaceOut := so; windowOut := map fields wo |}
       = Ok (rooms, st')
    /\ map Space.name rooms
       = map (fun space => PStr (IfcSpace.Name space))
           (filter (fun space => negb (excluded space))
              (map Located.space spaces)).
Proof.
  intro H.
  destruct (spaceOut_of_analysable _ H) as (so & Eso & Hwf & Hn).
  exists so. eexists. do 2 eexists.
  split; [exact Eso|]. split; [apply windowOut_of_spec|].
  split.
  - apply Spaces_init_wf. unfold wf_store. simpl. rewrite Hwf. simpl.
    rewrite map_map. simpl. apply forallb_forall.
    intros wp Hwp. apply in_map_iff in Hwp as (s & <- & _).
    rewrite intersectingObjects_flags_windows.
    apply intersectingObjects_wf.
  - simpl. rewrite map_map. simpl. exact Hn.
Qed.

Lemma Spaces_init_from_model_witness :
  exists (so : list (list pyval)) (wo : list pyval)
         (rooms : list Space.t) (st' : store),
    spaceOut_of (map Located.space model_scenario) = Ok so
    /\ windowOut_of model_scenario = Ok wo
    /\ Spaces_init {| spaceOut := so; windowOut := map fields wo |}
       = Ok (rooms, st')
    /\ map Space.name rooms
       = map (fun space => PStr (IfcSpace.Name space))
           (filter (fun space => negb (excluded space))
              (map Located.space model_scenario)).
Proof.
  apply (Spaces_init_from_model model_scenario). reflexivity.
Defined.

(** X9. A space that is no hallway and no roof space and whose profile
    is neither a rectangle nor a polygon gets a room record of three
    values (name, code, height), and the assembler raises [IndexError]
    on it, whatever the window list: the width and the depth it reads
    are not there. *)
Theorem other_profile_raises_IndexError (space : IfcSpace.t)
  (windows : list (list pyval)) :
  excluded space = false ->
  IfcSpace.prop space = OtherProfile ->
  spaceOut_of [space]
  = Ok [[PStr (IfcSpace.LongName space); PStr (IfcSpace.Name space);
         PNum (round3 (IfcSpace.Unbounded_Height space))]]
  /\ Spaces_init
       {| spaceOut := [[PStr (IfcSpace.LongName space);
                        PStr (IfcSpace.Name space);
                        PNum (round3 (IfcSpace.Unbounded_Height space))]];
          windowOut := windows |}
     = Raise IndexError.
Proof.
  unfold excluded. intros He Hp. apply orb_false_iff in He as [H1 H2].
  split.
  - unfold spaceOut_of, spaceDims. cbn [mapM bind].
    rewrite H1, H2, Hp. reflexivity.
  - reflexivity.
Qed.

Lemma other_profile_raises_IndexError_witness :
  spaceOut_of [attic_other_profile]
  = Ok [[PStr "Attic"; PStr "A301"; PNum (round3 2.5)]]
  /\ Spaces_init
       {| spaceOut := [[PStr "Attic"; PStr "A301"; PNum (round3 2.5)]];
          windowOut := windowOut scenario |}
     = Raise IndexError.
Proof.
  apply (other_profile_raises_IndexError attic_other_profile (windowOut scenario));
    reflexivity.
Defined.

(** ** The bounding box *)

Lemma round3_nonneg (x : Q) : 0 <= x -> 0 <= round3 x.
Proof.
  intro H. unfold round3. rewrite Qred_correct.
  assert (Hf : (0 <= Qfloor (x * 1000))%Z).
  { change 0%Z with (Qfloor 0). apply Qfloor_resp_le.
    apply Qmult_le_0_compat; [assumption|discriminate]. }
  assert (Hz : (0 <= round_half_even (x * 1000))%Z).
  { unfold round_half_even.
    destruct (Qcompare _ _); [destruct (Z.even _)| |]; lia. }
  unfold Qle. simpl. lia.
Qed.

(** X10. For a polygon of at least one point, all with an x and a y,
    [arbiClosOut] raises nothing, and the dimensions it returns are
    those of the axis-aligned bounding box, rounded to 3 decimals: the
    first is the largest x minus the smallest x among the points, the
    second the same for y; neither is negative. *)
Theorem arbiClosOut_bounding_box (p : list Q) (ps : list (list Q)) :
  has_coordinate 1 (p :: ps) = true ->
  let xs := map (fun point => nth 0 point 0) (p :: ps) in
  let ys := map (fun point => nth 1 point 0) (p :: ps) in
  exists minx maxx miny maxy : Q,
    In minx xs /\ In maxx xs /\ Forall (fun x => minx <= x /\ x <= maxx) xs
    /\ In miny ys /\ In maxy ys /\ Forall (fun y => miny <= y /\ y <= maxy) ys
    /\ arbiClosOut (p :: ps) []
       = Ok [PList [PNum 2; PNum (round3 (maxx - minx)); PFormat];
             PList [PNum 3; PNum (round3 (maxy - miny)); PFormat]]
    /\ 0 <= round3 (maxx - minx)
    /\ 0 <= round3 (maxy - miny).
Proof.
  intros H1 xs ys.
  assert (H0 : has_coordinate 0 (p :: ps) = true).
  { unfold has_coordinate in *. rewrite forallb_forall in *.
    intros q Hq. specialize (H1 q Hq).
    apply Nat.ltb_lt in H1. apply Nat.ltb_lt. lia. }
  destruct (fold_min_spec (map (fun point => nth 0 point 0) ps) (nth 0 p 0))
    as [Iminx Aminx].
  destruct (fold_max_spec (map (fun point => nth 0 point 0) ps) (nth 0 p 0))
    as [Imaxx Amaxx].
  destruct (fold_min_spec (map (fun point => nth 1 point 0) ps) (nth 1 p 0))
    as [Iminy Aminy].
  destruct (fold_max_spec (map (fun point => nth 1 point 0) ps) (nth 1 p 0))
    as [Imaxy Amaxy].
  do 4 eexists.
  split; [exact Iminx|]. split; [exact Imaxx|].
  split.
  { rewrite Forall_forall in *. intros x Hx. split; [now apply Aminx|now apply Amaxx]. }
  split; [exact Iminy|]. split; [exact Imaxy|].
  split.
  { rewrite Forall_forall in *. intros y Hy. split; [now apply Aminy|now apply Amaxy]. }
  split.
  { unfold arbiClosOut, arbiClosOut_points. simpl app.
    rewrite !coordinate_spec, H0, H1. reflexivity. }
  rewrite Forall_forall in Aminx, Aminy.
  split; apply round3_nonneg.
  - specialize (Aminx _ Imaxx). unfold Qminus. rewrite <- Qle_minus_iff. exact Aminx.
  - specialize (Aminy _ Imaxy). unfold Qminus. rewrite <- Qle_minus_iff. exact Aminy.
Qed.

Lemma arbiClosOut_bounding_box_witness :
  exists minx maxx miny maxy : Q,
    In minx [0; 4; 4; 1] /\ In maxx [0; 4; 4; 1]
    /\ Forall (fun x => minx <= x /\ x <= maxx) [0; 4; 4; 1]
    /\ In miny [0; 0; 3; 5] /\ In maxy [0; 0; 3; 5]
    /\ Forall (fun y => miny <= y /\ y <= maxy) [0; 0; 3; 5]
    /\ arbiClosOut [[0; 0]; [4; 0]; [4; 3]; [1; 5]] []
       = Ok [PList [PNum 2; PNum (round3 (maxx - minx)); PFormat];
             PList [PNum 3; PNum (round3 (maxy - miny)); PFormat]]
    /\ 0 <= round3 (maxx - minx)
    /\ 0 <= round3 (maxy - miny).
Proof.
  apply (arbiClosOut_bounding_box [0; 0] [[4; 0]; [4; 3]; [1; 5]]).
  reflexivity.
Defined.

(** X11. For a polygon profile the two dimensions keep their order: the
    room record holds the x extent before the y extent, and the
    assembled room has the x extent as its width ([sx]) and the y
    extent as its depth ([sy]). *)
Theorem polygon_width_is_x_extent (space : IfcSpace.t) (points : list (list Q))
  (w d : Q) (windows : list (list pyval)) :
  excluded space = false ->
  IfcSpace.prop space = IfcArbitraryClosedProfileDef points ->
  arbiClosOut points []
  = Ok [PList [PNum 2; PNum w; PFormat]; PList [PNum 3; PNum d; PFormat]] ->
  forallb wf_windowParam windows = true ->
  exists (room : Space.t) (st' : store),
    spaceOut_of [space]
    = Ok [[PStr (IfcSpace.LongName space); PStr (IfcSpace.Name space);
           PNum w; PNum d; PNum (round3 (IfcSpace.Unbounded_Height space))]]
    /\ Spaces_init
         {| spaceOut := [[PStr (IfcSpace.LongName space);
                          PStr (IfcSpace.Name space);
                          PNum w; PNum d;
                          PNum (round3 (IfcSpace.Unbounded_Height space))]];
            windowOut := windows |}
       = Ok ([room], st')
    /\ Space.sx room = PNum w
    /\ Space.sy room = PNum d.
Proof.
  unfold excluded. intros He Hp Ha Hw. apply orb_false_iff in He as [H1 H2].
  do 2 eexists. split.
  - unfold spaceOut_of, spaceDims. cbn [mapM bind].
    rewrite H1, H2, Hp. cbn [negb andb bind]. rewrite Ha. reflexivity.
  - split.
    + rewrite Spaces_init_wf; [reflexivity|].
      unfold wf_store. simpl. exact Hw.
    + split; reflexivity.
Qed.

Lemma polygon_width_is_x_extent_witness :
  exists (room : Space.t) (st' : store),
    spaceOut_of [foyer_polygon]
    = Ok [[PStr "Foyer"; PStr "A101"; PNum 4; PNum 3; PNum (round3 2.5)]]
    /\ Spaces_init
         {| spaceOut := [[PStr "Foyer"; PStr "A101"; PNum 4; PNum 3;
                          PNum (round3 2.5)]];
            windowOut := [] |}
       = Ok ([room], st')
    /\ Space.sx room = PNum 4
    /\ Space.sy room = PNum 3.
Proof.
  apply (polygon_width_is_x_extent foyer_polygon
           [[0; 0]; [4; 0]; [4; 2]; [2; 2]; [2; 3]; [0; 3]] 4 3 []);
    reflexivity.
Defined.

Lemma py_min_translate (vs : list Q) (d : Q) :
  same_number (py_min (map (fun v => v + d) vs))
    (match py_min vs with Ok m => Ok (m + d) | Raise e => Raise e end).
Proof.
  destruct vs as [|v vs]; simpl; [reflexivity|].
  destruct (fold_min_spec (map (fun v => v + d) vs) (v + d)) as [Hin' Hall'].
  destruct (fold_min_spec vs v) as [Hin Hall].
  rewrite Forall_forall in Hall, Hall'.
  apply Qle_antisym.
  - apply Hall'. change (In ((fun v => v + d) (fold_left (fun m x => if Qlt_bool x m then x else m) vs v))
                           (map (fun v => v + d) (v :: vs))).
    now apply in_map.
  - change (In (fold_left (fun m x => if Qlt_bool x m then x else m)
                  (map (fun v => v + d) vs) (v + d))
              (map (fun v => v + d) (v :: vs))) in Hin'.
    apply in_map_iff in Hin' as (u & <- & Hu).
    apply Qplus_le_compat; [now apply Hall|apply Qle_refl].
Qed.

Lemma py_max_translate (vs : list Q) (d : Q) :
  same_number (py_max (map (fun v => v + d) vs))
    (match py_max vs with Ok m => Ok (m + d) | Raise e => Raise e end).
Proof.
  destruct vs as [|v vs]; simpl; [reflexivity|].
  destruct (fold_max_spec (map (fun v => v + d) vs) (v + d)) as [Hin' Hall'].
  destruct (fold_max_spec vs v) as [Hin Hall].
  rewrite Forall_forall in Hall, Hall'.
  apply Qle_antisym.
  - change (In (fold_left (fun m x => if Qlt_bool m x then x else m)
                  (map (fun v => v + d) vs) (v + d))
              (map (fun v => v + d) (v :: vs))) in Hin'.
    apply in_map_iff in Hin' as (u & <- & Hu).
    apply Qplus_le_compat; [now apply Hall|apply Qle_refl].
  - apply Hall'. change (In ((fun v => v + d) (fold_left (fun m x => if Qlt_bool m x then x else m) vs v))
                           (map (fun v => v + d) (v :: vs))).
    now apply in_map.
Qed.

Lemma has_coordinate_translate (k : nat) (dx dy : Q) (points : list (list Q)) :
  has_coordinate k (map (translate dx dy) points) = has_coordinate k points.
Proof.
  unfold has_coordinate. induction points as [|p points IH]; simpl; [reflexivity|].
  rewrite IH. f_equal. destruct p as [|x [|y rest]]; reflexivity.
Qed.

Lemma coordinates_translate (dx dy : Q) (points : list (list Q)) :
  has_coordinate 1 points = true ->
  map (fun point => nth 0 point 0) (map (translate dx dy) points)
  = map (fun v => v + dx) (map (fun point => nth 0 point 0) points)
  /\ map (fun point => nth 1 point 0) (map (translate dx dy) points)
     = map (fun v => v + dy) (map (fun point => nth 1 point 0) points).
Proof.
  unfold has_coordinate.
  induction points as [|p points IH]; simpl; intro H; [split; reflexivity|].
  apply andb_true_iff in H as [Hp H]. destruct (IH H) as [Ex Ey].
  rewrite Ex, Ey.
  destruct p as [|x [|y rest]]; try discriminate. split; reflexivity.
Qed.

(** X12. The bounding box does not depend on where the polygon lies:
    moving every point by the same [(dx, dy)] gives the same rows, and
    the same exception when there is one. *)
Theorem arbiClosOut_translate (dx dy : Q) (points : list (list Q)) :
  arbiClosOut (map (translate dx dy) points) [] = arbiClosOut points [].
Proof.
  unfold arbiClosOut, arbiClosOut_points. simpl app.
  rewrite !coordinate_spec, !has_coordinate_translate.
  destruct (has_coordinate 0 points); simpl; [|reflexivity].
  destruct points as [|p ps]; [reflexivity|].
  destruct (has_coordinate 1 (p :: ps)) eqn:H1; [|reflexivity].
  destruct (coordinates_translate dx dy (p :: ps) H1) as [Ex Ey].
  rewrite Ex, Ey.
  pose proof (py_min_translate (map (fun point => nth 0 point 0) (p :: ps)) dx) as Mx.
  pose proof (py_max_translate (map (fun point => nth 0 point 0) (p :: ps)) dx) as Nx.
  pose proof (py_min_translate (map (fun point => nth 1 point 0) (p :: ps)) dy) as My.
  pose proof (py_max_translate (map (fun point => nth 1 point 0) (p :: ps)) dy) as Ny.
  simpl in Mx, Nx, My, Ny. simpl.
  match goal with
  | |- Ok [PList [_; PNum (round3 (?a' - ?b')); _];
           PList [_; PNum (round3 (?c' - ?e')); _]]
       = Ok [PList [_; PNum (round3 (?a - ?b)); _];
             PList [_; PNum (round3 (?c - ?e)); _]] =>
      rewrite (round3_comp (a' - b') (a - b)),
              (round3_comp (c' - e') (c - e)); [reflexivity| |]
  end.
  - rewrite Ny, My. ring.
  - rewrite Nx, Mx. ring.
Qed.

(** ** The share of the room above the threshold *)

Lemma count_points_fold (values : list Q) :
  forall count countT : nat,
    fold_left (fun st value =>
                 let DFpoint := value / 10000 * 100 in
                 (if Qle_bool 2.1 DFpoint then S (fst st) else fst st,
                  S (snd st)))
      values (count, countT)
    = ((count + length (filter over_threshold values))%nat,
       (countT + length values)%nat).
Proof.
  induction values as [|v values IH]; intros count countT; simpl.
  - now rewrite !Nat.add_0_r.
  - rewrite IH. unfold over_threshold.
    destruct (Qle_bool 2.1 (v / 10000 * 100)); simpl; f_equal; lia.
Qed.

Lemma percentage_bounds (c t : nat) :
  (0 < t)%nat -> (c <= t)%nat ->
  let r := inject_Z (Z.of_nat c) / inject_Z (Z.of_nat t) * 100 in
  0 <= r /\ r <= 100 /\ (50 <= r <-> (t <= 2 * c)%nat).
Proof.
  intros Ht Hc r.
  assert (Tpos : 0 < inject_Z (Z.of_nat t))
    by (rewrite <- (Zlt_Qlt 0); lia).
  assert (Tne : ~ inject_Z (Z.of_nat t) == 0)
    by (intro E; rewrite E in Tpos; discriminate).
  assert (E : r * inject_Z (Z.of_nat t) == inject_Z (Z.of_nat c) * 100).
  { unfold r. field. exact Tne. }
  assert (L : forall a : Q,
             a <= r <-> a * inject_Z (Z.of_nat t) <= inject_Z (Z.of_nat c) * 100).
  { intro a. rewrite <- E. split; intro H.
    - apply Qmult_le_compat_r; [assumption|now apply Qlt_le_weak].
    - apply Qmult_lt_0_le_reg_r with (inject_Z (Z.of_nat t)); assumption. }
  assert (U : forall a : Q,
             r <= a <-> inject_Z (Z.of_nat c) * 100 <= a * inject_Z (Z.of_nat t)).
  { intro a. rewrite <- E. split; intro H.
    - apply Qmult_le_compat_r; [assumption|now apply Qlt_le_weak].
    - apply Qmult_lt_0_le_reg_r with (inject_Z (Z.of_nat t)); assumption. }
  split; [|split].
  - apply L. change 100 with (inject_Z 100). change 0 with (inject_Z 0).
    rewrite <- !inject_Z_mult, <- Zle_Qle. lia.
  - apply U. change 100 with (inject_Z 100).
    rewrite <- !inject_Z_mult, <- Zle_Qle. lia.
  - rewrite L. change 100 with (inject_Z 100). change 50 with (inject_Z 50).
    rewrite <- !inject_Z_mult, <- Zle_Qle. lia.
Qed.

(** X13. The share [resultsOut] prints: with no value the division
    raises ([ZeroDivisionError]); otherwise the share lies between 0
    and 100, and the room passes (share of at least 50) exactly when at
    least half of the values are over the threshold. *)
Theorem DFresult_verdict (values : list Q) :
  let count := length (filter over_threshold values) in
  let countT := length values in
  (DFresult values = None <-> values = [])
  /\ (forall r : Q, DFresult values = Some r -> 0 <= r /\ r <= 100)
  /\ (passes values = Some true <-> values <> [] /\ (countT <= 2 * count)%nat).
Proof.
  intros count countT.
  assert (E : count_points values = (count, countT)).
  { unfold count_points. now rewrite count_points_fold. }
  assert (Hc : (count <= countT)%nat) by apply filter_length_le.
  unfold passes, DFresult. rewrite E.
  destruct values as [|v values].
  - simpl. repeat split; try discriminate; intros; tauto.
  - assert (Ht : (0 < countT)%nat) by (unfold countT; simpl; lia).
    clearbody count countT. clear E.
    destruct countT as [|n]; [lia|].
    destruct (percentage_bounds count (S n) Ht Hc) as (B0 & B100 & B50).
    cbn [option_map]. split; [|split].
    + split; discriminate.
    + intros q Hq. inversion Hq. subst q. split; assumption.
    + split.
      * intro H. inversion H as [H']. apply Qle_bool_iff in H'.
        split; [discriminate|now apply B50].
      * intros [_ H]. f_equal. apply Qle_bool_iff. now apply B50.
Qed.

(** ** The rows of the plot *)

Lemma firstn_plus {A : Type} (a b : nat) (l : list A) :
  firstn (a + b) l = firstn a l ++ firstn b (skipn a l).
Proof.
  revert l. induction a as [|a IH]; intro l; simpl; [reflexivity|].
  destruct l as [|x l]; simpl.
  - now destruct b.
  - now rewrite IH.
Qed.

Lemma concat_chunks {A : Type} (d : nat) (l : list A) (m : nat) :
  concat (map (fun i => firstn d (skipn i l))
            (map (fun k => (k * d)%nat) (seq 0 m)))
  = firstn (m * d) l.
Proof.
  induction m as [|m IH]; [reflexivity|].
  rewrite seq_S, !map_app, concat_app, IH. cbn [map concat Nat.add].
  rewrite app_nil_r.
  replace (S m * d)%nat with (m * d + d)%nat by lia.
  symmetry. apply firstn_plus.
Qed.

Lemma chunks_cover (n d : nat) :
  (0 < d)%nat ->
  let m := ((n + d - 1) / d)%nat in
  (n <= m * d)%nat /\ (forall k, (k < m)%nat -> (k * d < n)%nat)
  /\ (forall k, (S k < m)%nat -> (S k * d <= n)%nat).
Proof.
  intros Hd m.
  pose proof (Nat.div_mod_eq (n + d - 1) d) as E.
  pose proof (Nat.mod_upper_bound (n + d - 1) d ltac:(lia)) as R.
  fold m in E. split; [nia|]. split; intros k Hk; nia.
Qed.

(** X14. The matrix for the plot: a step of 0 makes [range] raise
    [ValueError] and a negative one gives no row; for a positive [dim]
    the rows laid end to end are the result list again (no value is
    lost, repeated or moved), every row holds between 1 and [dim]
    values, and every row but the last holds exactly [dim]. *)
Theorem plot_rows_partition (resultList : list Q) :
  plot_rows 0 resultList = Raise ValueError
  /\ (forall p : positive, plot_rows (Zneg p) resultList = Ok [])
  /\ forall p : positive,
       exists rows : list (list Q),
         plot_rows (Zpos p) resultList = Ok rows
         /\ concat rows = resultList
         /\ Forall (fun row => (1 <= length row <= Pos.to_nat p)%nat) rows
         /\ forall k : nat,
              (S k < length rows)%nat ->
              length (nth k rows []) = Pos.to_nat p.
Proof.
  split; [reflexivity|]. split; [reflexivity|].
  intro p. eexists. split; [reflexivity|].
  change (Z.to_nat (Z.pos p)) with (Pos.to_nat p).
  set (d := Pos.to_nat p). set (n := length resultList).
  assert (Hd : (0 < d)%nat) by apply Pos2Nat.is_pos.
  destruct (chunks_cover n d Hd) as (C1 & C2 & C3).
  unfold range_from_0. fold n.
  set (m := ((n + d - 1) / d)%nat) in *.
  split; [|split].
  - rewrite concat_chunks. apply firstn_all2. exact C1.
  - apply Forall_forall. intros row Hr.
    apply in_map_iff in Hr as (i & <- & Hi).
    apply in_map_iff in Hi as (k & <- & Hk).
    apply in_seq in Hk. specialize (C2 k ltac:(lia)).
    rewrite length_firstn, length_skipn. fold n. lia.
  - intros k Hk. rewrite !length_map, length_seq in Hk.
    rewrite map_map.
    rewrite (nth_indep _ [] (firstn d (skipn (0 * d) resultList)))
      by (rewrite length_map, length_seq; lia).
    rewrite (map_nth (fun x => firstn d (skipn (x * d) resultList)) (seq 0 m) 0%nat k).
    rewrite seq_nth by lia. simpl Nat.add.
    rewrite length_firstn, length_skipn. fold n.
    specialize (C3 k Hk). simpl in C3. lia.
Qed.

(** ** Building the room tree again *)

Lemma space_record_app (windowOut : list (list pyval)) (spaceParam l : list pyval) :
  wf_spaceParam spaceParam = true ->
  space_record windowOut (spaceParam ++ l) = space_record windowOut spaceParam.
Proof.
  unfold wf_spaceParam. intro H. apply Nat.leb_le in H.
  unfold space_record.
  rewrite windows_of_app by lia. rewrite !field_app by lia. reflexivity.
Qed.

(** X15. [main.py] builds [Spaces] from the same two lists more than
    once. On well-formed lists the second build raises nothing and
    returns the same rooms as the first, although the first has
    extended the room records; the second extends them once more by the
    same entries. *)
Theorem Spaces_init_twice (st : store) :
  wf_store st = true ->
  exists (rooms : list Space.t) (st' st'' : store),
    Spaces_init st = Ok (rooms, st')
    /\ Spaces_init st' = Ok (rooms, st'')
    /\ windowOut st'' = windowOut st
    /\ spaceOut st''
       = map (fun spaceParam =>
                (spaceParam ++ appended_to spaceParam (windowOut st))
                ++ appended_to spaceParam (windowOut st))
           (spaceOut st).
Proof.
  intro Hwf. pose proof Hwf as H. unfold wf_store in H.
  apply andb_true_iff in H as [Hs Hw].
  set (st' := {| spaceOut := map (fun spaceParam =>
                                    spaceParam ++ appended_to spaceParam (windowOut st))
                               (spaceOut st);
                 windowOut := windowOut st |}).
  assert (Hwf' : wf_store st' = true).
  { unfold wf_store, st'. simpl. rewrite Hw, andb_true_r.
    apply forallb_forall. intros r Hr.
    apply in_map_iff in Hr as (r0 & <- & Hr0).
    rewrite forallb_forall in Hs. specialize (Hs r0 Hr0).
    unfold wf_spaceParam in *. apply Nat.leb_le in Hs. apply Nat.leb_le.
    rewrite length_app. lia. }
  assert (E1 : map (space_record (windowOut st)) (spaceOut st')
               = map (space_record (windowOut st)) (spaceOut st)).
  { unfold st'. simpl. rewrite map_map. apply map_ext_in. intros r Hr.
    apply space_record_app. rewrite forallb_forall in Hs. now apply Hs. }
  assert (E2 : map (fun spaceParam =>
                      spaceParam ++ appended_to spaceParam (windowOut st))
                 (spaceOut st')
               = map (fun spaceParam =>
                        (spaceParam ++ appended_to spaceParam (windowOut st))
                        ++ appended_to spaceParam (windowOut st))
                   (spaceOut st)).
  { unfold st'. simpl. rewrite map_map. apply map_ext_in. intros r Hr.
    rewrite appended_to_app; [reflexivity|].
    rewrite forallb_forall in Hs. specialize (Hs r Hr).
    unfold wf_spaceParam in Hs. apply Nat.leb_le in Hs. lia. }
  exists (map (space_record (windowOut st)) (spaceOut st)), st'.
  exists {| spaceOut := map (fun spaceParam =>
                               (spaceParam ++ appended_to spaceParam (windowOut st))
                               ++ appended_to spaceParam (windowOut st))
                          (spaceOut st);
            windowOut := windowOut st |}.
  split; [exact (Spaces_init_wf st Hwf)|].
  split; [|split; reflexivity].
  rewrite (Spaces_init_wf st' Hwf').
  change (windowOut st') with (windowOut st). now rewrite E1, E2.
Qed.

Lemma Spaces_init_twice_witness :
  exists (rooms : list Space.t) (st' st'' : store),
    Spaces_init scenario = Ok (rooms, st')
    /\ Spaces_init st' = Ok (rooms, st'')
    /\ windowOut st'' = windowOut scenario
    /\ spaceOut st''
       = map (fun spaceParam =>
                (spaceParam ++ appended_to spaceParam (windowOut scenario))
                ++ appended_to spaceParam (windowOut scenario))
           (spaceOut scenario).
Proof.
  apply (Spaces_init_twice scenario). reflexivity.
Defined.

(** ** From the IFC window to the assembled window *)

(** X16. What the assembler makes of the entry [windowParams] builds
    for a window: the entry lists the height before the width and the
    assembler reads the second value as [wx] and the third as [wy], so
    [wx] is the opening's height and [wy] its width; a missing sill
    height becomes 0.1; the location is the x and the z of the
    placement. No exception is raised. *)
Theorem Window_of_windowParams (window : IfcWindow.t) (box : list IfcElement.t) :
  Window_of (PList (windowParams window box false))
  = Ok {| Window.name := PStr (IfcWindow.Tag window);
          Window.wx := PNum (round3 (IfcWindow.Height window));
          Window.wy := PNum (round3 (IfcWindow.Width window));
          Window.sillHeight :=
            match IfcWindow.Sill_Height window with
            | Some v => PNum (round3 v)
            | None => PNum 0.1
            end;
          Window.wall_name := PStr (fst (locate_wall box));
          Window.wall_length := snd (locate_wall box);
          Window.loc_x := PNum (fst (fst (IfcWindow.Location window)));
          Window.loc_y := PNum (snd (IfcWindow.Location window)) |}.
Proof.
  unfold windowParams.
  destruct (IfcWindow.Location window) as [[x y] z].
  destruct (locate_wall box) as [n l].
  destruct (IfcWindow.Sill_Height window); reflexivity.
Qed.

(** ** The wall of an opening *)

(** X17. When the last wall among the candidates has one of the four
    directions, the length and the orientation reported are both that
    wall's, whatever stands before it; with no wall among the
    candidates the entry holds the empty name and the length 0. *)
Theorem locate_wall_last_wall (before after : list IfcElement.t)
  (wall : IfcElement.t) (window : IfcWindow.t) :
  is_wall wall = true ->
  forallb (fun e => negb (is_wall e)) after = true ->
  wall_orientation EmptyString (IfcElement.RefDirection wall) <> EmptyString ->
  locate_wall (before ++ wall :: after)
  = (wall_orientation EmptyString (IfcElement.RefDirection wall),
     IfcElement.Length wall)
  /\ locate_wall after = (EmptyString, PNum 0)
  /\ field (windowParams window after false) 4 = PStr EmptyString
  /\ field (windowParams window after false) 5 = PNum 0.
Proof.
  intros Hw Ha Hn. split; [|split].
  - rewrite (surjective_pairing (locate_wall _)).
    rewrite locate_wall_name, locate_wall_length by assumption.
    f_equal. revert Hn. generalize (fst (locate_wall before)).
    unfold wall_orientation. intros s Hn.
    destruct (tuple_eq _ [0; 0; 0]); [reflexivity|].
    destruct (tuple_eq _ [0; -1; 0]); [reflexivity|].
    destruct (tuple_eq _ [0; 1; 0]); [reflexivity|].
    destruct (tuple_eq _ [-1; 0; 0]); [reflexivity|].
    now elim Hn.
  - now apply locate_wall_no_wall.
  - unfold windowParams. rewrite (locate_wall_no_wall after Ha).
    destruct (IfcWindow.Location window) as [[x y] z]. split; reflexivity.
Qed.

Lemma locate_wall_last_wall_witness :
  locate_wall ([wall_other_7] ++ wall_left_5 :: [])
  = (wall_orientation EmptyString (IfcElement.RefDirection wall_left_5),
     IfcElement.Length wall_left_5)
  /\ locate_wall [] = (EmptyString, PNum 0)
  /\ field (windowParams
              {| IfcWindow.Name := "Fixed"; IfcWindow.Tag := "W1";
                 IfcWindow.Height := 1.5; IfcWindow.Width := 1;
                 IfcWindow.Sill_Height := None;
                 IfcWindow.Location := (5, 0, 1.2) |} [] false) 4
     = PStr EmptyString
  /\ field (windowParams
              {| IfcWindow.Name := "Fixed"; IfcWindow.Tag := "W1";
                 IfcWindow.Height := 1.5; IfcWindow.Width := 1;
                 IfcWindow.Sill_Height := None;
                 IfcWindow.Location := (5, 0, 1.2) |} [] false) 5
     = PNum 0.
Proof.
  apply (locate_wall_last_wall [wall_other_7] [] wall_left_5).
  - reflexivity.
  - reflexivity.
  - discriminate.
Defined.

(** ** Placing a window on a surface *)

Lemma find_hbsurface_none (n : string) (surfaces : list HBSurface.t) :
  forallb (other_surface n) surfaces = true ->
  forall (k : nat) (hbsurface : option nat),
    find_hbsurface (PStr n) surfaces k hbsurface = Ok hbsurface.
Proof.
  induction surfaces as [|s surfaces IH]; intros H k h; simpl; [reflexivity|].
  simpl in H. apply andb_true_iff in H as [Hs H].
  unfold other_surface, contains in Hs. apply negb_true_iff in Hs.
  destruct (String.index 0 n (HBSurface.str s)); [discriminate|].
  simpl. now apply IH.
Qed.

Lemma find_hbsurface_last (n : string) (before after : list HBSurface.t)
  (s : HBSurface.t) :
  contains n (HBSurface.str s) = true ->
  forallb (other_surface n) after = true ->
  forall (k : nat) (hbsurface : option nat),
    find_hbsurface (PStr n) (before ++ s :: after) k hbsurface
    = Ok (Some (k + length before)%nat).
Proof.
  intros Hs Ha. unfold contains in Hs.
  induction before as [|b before IH]; intros k h; simpl.
  - destruct (String.index 0 n (HBSurface.str s)); [|discriminate].
    simpl. rewrite find_hbsurface_none by assumption. now rewrite Nat.add_0_r.
  - destruct (String.index 0 n (HBSurface.str b)); simpl;
      rewrite IH; do 2 f_equal; lia.
Qed.

Lemma correct_loc_x_numeric (space : Space.t) (window : Window.t) :
  numeric_space space = true ->
  numeric_window window = true ->
  exists x : Q,
    correct_loc_x space window = Ok (Window.set_loc_x window (PNum x)).
Proof.
  unfold numeric_space, numeric_window, correct_loc_x. intros Hs Hw.
  destruct window as [nm wx wy sill wn wl lx ly]. simpl in *.
  destruct (Space.sx space); try discriminate.
  destruct (Space.sy space); try discriminate.
  destruct lx, ly, wx, wy, wl; try discriminate. simpl.
  destruct (Qlt_bool _ _); simpl; [destruct (Qlt_bool _ _); simpl|];
    eexists; reflexivity.
Qed.

Lemma glazing_points_numeric (window : Window.t) (x : Q) :
  numeric_window window = true ->
  exists glzpts : list (pyval * pyval * pyval),
    glazing_points (Window.set_loc_x window (PNum x)) = Ok glzpts.
Proof.
  unfold numeric_window, glazing_points. intro Hw.
  destruct window as [nm wx wy sill wn wl lx ly]. simpl in *.
  destruct lx, ly, wx, wy, wl; try discriminate. simpl.
  eexists; reflexivity.
Qed.

(** X18. With numbers in the window and the room, [__addWindows] puts
    the glazing, named after the window, on the last surface whose
    string contains the window's wall name, and on no other: the
    surfaces before and after it and the room's dimensions stay as they
    were. *)
Theorem addWindows_last_matching_surface (space : Space.t) (room : Room.t)
  (window : Window.t) (n : string) (before after : list HBSurface.t)
  (s : HBSurface.t) :
  numeric_space space = true ->
  numeric_window window = true ->
  Window.wall_name window = PStr n ->
  Room.surfaces room = before ++ s :: after ->
  contains n (HBSurface.str s) = true ->
  forallb (other_surface n) after = true ->
  exists (room' : Room.t) (window' : Window.t) (glzsrf : HBFenSurface.t),
    addWindows space room window = Ok (room', window')
    /\ Room.surfaces room'
       = before ++ HBSurface.add_fenestration_surface s glzsrf :: after
    /\ HBFenSurface.name glzsrf = Window.name window
    /\ Room.width room' = Room.width room
    /\ Room.depth room' = Room.depth room
    /\ Room.height room' = Room.height room.
Proof.
  intros Hsp Hw Hn Hsurf Hs Ha.
  destruct (correct_loc_x_numeric space window Hsp Hw) as (x & Ex).
  destruct (glazing_points_numeric window x Hw) as (glzpts & Eg).
  unfold addWindows.
  rewrite Hn, Hsurf, (find_hbsurface_last n before after s Hs Ha).
  rewrite Nat.add_0_l.
  cbn [bind]. rewrite Ex. cbn [bind]. rewrite Eg. cbn [bind].
  assert (Hnth : nth_error (before ++ s :: after) (length before) = Some s)
    by (rewrite nth_error_app2, Nat.sub_diag by lia; reflexivity).
  assert (Hfirst : firstn (length before) (before ++ s :: after) = before)
    by (rewrite firstn_app, firstn_all, Nat.sub_diag, app_nil_r; reflexivity).
  assert (Hskip : skipn (S (length before)) (before ++ s :: after) = after).
  { change (S (length before)) with (1 + length before)%nat.
    rewrite <- skipn_skipn, skipn_app, skipn_all, Nat.sub_diag. reflexivity. }
  do 3 eexists. split; [reflexivity|].
  unfold Room.add_fenestration.
  cbn [Room.surfaces Room.width Room.depth Room.height].
  rewrite Hsurf, Hnth, Hfirst, Hskip. repeat split.
Qed.

Lemma addWindows_last_matching_surface_witness :
  exists (room' : Room.t) (window' : Window.t) (glzsrf : HBFenSurface.t),
    addWindows scenario_space (createRoom six_surfaces scenario_space) window_W4
    = Ok (room', window')
    /\ Room.surfaces room'
       = firstn 2 six_surfaces
         ++ HBSurface.add_fenestration_surface
              {| HBSurface.str := "back"; HBSurface.fenestration := [] |} glzsrf
            :: skipn 3 six_surfaces
    /\ HBFenSurface.name glzsrf = Window.name window_W4
    /\ Room.width room' = Room.width (createRoom six_surfaces scenario_space)
    /\ Room.depth room' = Room.depth (createRoom six_surfaces scenario_space)
    /\ Room.height room' = Room.height (createRoom six_surfaces scenario_space).
Proof.
  apply (addWindows_last_matching_surface scenario_space
           (createRoom six_surfaces scenario_space) window_W4 "back"
           (firstn 2 six_surfaces) (skipn 3 six_surfaces)
           {| HBSurface.str := "back"; HBSurface.fenestration := [] |});
    reflexivity.
Defined.

(** X19. When no surface's string contains the window's wall name,
    [__addWindows] raises [UnboundLocalError]: [hbsurface] was never
    bound when the glazing is to be added. *)
Theorem addWindows_no_surface (space : Space.t) (room : Room.t)
  (window : Window.t) (n : string) :
  numeric_space space = true ->
  numeric_window window = true ->
  Window.wall_name window = PStr n ->
  forallb (other_surface n) (Room.surfaces room) = true ->
  addWindows space room window = Raise UnboundLocalError.
Proof.
  intros Hsp Hw Hn Hs.
  destruct (correct_loc_x_numeric space window Hsp Hw) as (x & Ex).
  destruct (glazing_points_numeric window x Hw) as (glzpts & Eg).
  unfold addWindows.
  rewrite Hn, (find_hbsurface_none n _ Hs). cbn [bind].
  rewrite Ex. cbn [bind]. rewrite Eg. reflexivity.
Qed.

Lemma addWindows_no_surface_witness :
  addWindows scenario_space (createRoom six_surfaces scenario_space) window_W5
  = Raise UnboundLocalError.
Proof.
  apply (addWindows_no_surface scenario_space
           (createRoom six_surfaces scenario_space) window_W5 "north");
    reflexivity.
Defined.
